(** * express-redis-simple-cache: the key deriver and the caching middleware

    A shallow embedding of [src/log.ts] (the logger and the key generator) and
    of [src/index.ts] (the middleware factory), followed by the properties the
    specification states about them.

    JavaScript values are a small tree type; the request's cookie and header
    mappings are finite maps; the module-level variables ([redis],
    [currentLogLevel]), the response object and the calls made on the
    framework and on the store client are threaded through a state monad with
    completions (normal, thrown, non-terminating).  [setupCache] and
    [stopCache] only set up and tear down what is the initial world here. *)

From Stdlib Require Import ZArith String Ascii List Bool DecimalString.
From stdpp Require Import base option gmap strings.
Import ListNotations.

Local Open Scope string_scope.
Local Open Scope list_scope.
Set Warnings "-register-all".

(** ** JavaScript values *)

(** The numbers of the model: the safe integers (those whose absolute value
    is at most 2^53 - 1, which a double holds exactly) and [NaN].
    (Fractions, larger numbers, the infinities and the negative zero are
    not represented.)  [Int z] writes the safe integer [z]. *)
Definition MAX_SAFE_INTEGER : Z := 9007199254740991.

Record SafeInteger := {
  int_value : Z;
  int_safe : (Z.abs int_value <=? MAX_SAFE_INTEGER)%Z = true
}.

Inductive JSNumber :=
| NaN
| Safe (n : SafeInteger).

Notation "'Int' z" := (Safe {| int_value := z; int_safe := eq_refl |})
  (at level 10, z at level 9).

Inductive JSValue :=
| JUndefined
| JNull
| JBool (b : bool)
| JNum (n : JSNumber)
| JStr (s : string)
| JArr (items : list JSValue)
| JObj (fields : list (string * JSValue)).

Inductive JSError :=
| TypeError (message : string)
| SyntaxError (message : string).

(** How a call ends: it returns, it throws (for an [async] function: the
    promise it returned is rejected), or it never ends. *)
Inductive Completion (A : Type) :=
| Normal (a : A)
| Throws (e : JSError)
| Loops.
Arguments Normal {A} a.
Arguments Throws {A} e.
Arguments Loops {A}.

(** [!!v] of JavaScript: [undefined], [null], [false], [0], [NaN] and the
    empty string are falsy, everything else is truthy. *)
Definition number_truthy (n : JSNumber) : bool :=
  match n with
  | NaN => false
  | Safe n => negb (int_value n =? 0)%Z
  end.

Definition truthy (v : JSValue) : bool :=
  match v with
  | JUndefined | JNull => false
  | JBool b => b
  | JNum n => number_truthy n
  | JStr s => negb (String.eqb s "")
  | JArr _ | JObj _ => true
  end.

(** [a || b] *)
Definition js_or (a b : JSValue) : JSValue := if truthy a then a else b.

(** [typeof v === 'object'] *)
Definition typeof_object (v : JSValue) : bool :=
  match v with
  | JNull | JArr _ | JObj _ => true
  | _ => false
  end.

(** A safe integer prints as its decimal digits (the exponent form starts
    at 1e21, beyond the safe integers). *)
Definition Number_toString (n : JSNumber) : string :=
  match n with
  | NaN => "NaN"
  | Safe n => NilZero.string_of_int (Z.to_int (int_value n))
  end.

(** Whether an object has an own property of that name. *)
Definition has_own (name : string) (fields : list (string * JSValue)) : bool :=
  existsb (fun kv => String.eqb (fst kv) name) fields.

(** The string conversion a template literal applies to [${v}].  The model
    holds no function values, so an own [toString] of an object is not
    callable: the conversion then goes on to [valueOf], which is not
    callable either or is the inherited one and returns the object, and ends
    in a [TypeError].  Without an own [toString] the inherited one answers
    ["[object Object]"].  An array is joined with commas, [undefined] and
    [null] elements printing as nothing, the others converted in turn. *)
Fixpoint ToString (v : JSValue) : Completion string :=
  match v with
  | JUndefined => Normal "undefined"
  | JNull => Normal "null"
  | JBool true => Normal "true"
  | JBool false => Normal "false"
  | JNum n => Normal (Number_toString n)
  | JStr s => Normal s
  | JArr items =>
      (fix join (l : list JSValue) : Completion string :=
         match l with
         | [] => Normal ""
         | x :: tl =>
             match (match x with
                    | JUndefined | JNull => Normal ""
                    | _ => ToString x
                    end) with
             | Normal sx =>
                 match tl with
                 | [] => Normal sx
                 | _ :: _ =>
                     match join tl with
                     | Normal rest => Normal (sx +:+ "," +:+ rest)
                     | other => other
                     end
                 end
             | other => other
             end
         end) items
  | JObj fields =>
      if has_own "toString" fields then
        Throws (TypeError "Cannot convert object to primitive value")
      else Normal "[object Object]"
  end.

(** [s.startsWith(c)] for a one-character [c]. *)
Definition startsWith (s : string) (c : ascii) : bool :=
  match s with
  | String c' _ => Ascii.eqb c' c
  | EmptyString => false
  end.

(** [s.toLowerCase()] on ASCII letters (the header names below are ASCII). *)
Definition lower_ascii (c : ascii) : ascii :=
  let n := nat_of_ascii c in
  if (65 <=? n)%nat && (n <=? 90)%nat then ascii_of_nat (n + 32) else c.

Fixpoint toLowerCase (s : string) : string :=
  match s with
  | EmptyString => EmptyString
  | String c tl => String (lower_ascii c) (toLowerCase tl)
  end.

(** The properties that every plain object inherits from
    [Object.prototype], each with the text a template literal prints for
    its value: the built-in functions print as native code, the function at
    [constructor] is [Object], and [__proto__] is [Object.prototype]
    itself. *)
Definition native_function_text (name : string) : string :=
  "function " +:+ name +:+ "() { [native code] }".

Definition Object_prototype_text (name : string) : option string :=
  if String.eqb name "constructor" then Some (native_function_text "Object")
  else if String.eqb name "__proto__" then Some "[object Object]"
  else if existsb (String.eqb name)
            [ "__defineGetter__"; "__defineSetter__"; "hasOwnProperty";
              "__lookupGetter__"; "__lookupSetter__"; "isPrototypeOf";
              "propertyIsEnumerable"; "toString"; "valueOf";
              "toLocaleString" ]
       then Some (native_function_text name)
  else None.

(** What [o[name]] finds on a plain object whose own properties are [o]: a
    value of the model (the own property, or [undefined] when there is
    neither an own nor an inherited one), or a member inherited from
    [Object.prototype], which is truthy and is kept as the text it prints
    as. *)
Inductive Member :=
| member_value (v : JSValue)
| member_inherited (text : string).

Definition get_member (o : gmap string JSValue) (name : string) : Member :=
  match o !! name with
  | Some v => member_value v
  | None =>
      match Object_prototype_text name with
      | Some text => member_inherited text
      | None => member_value JUndefined
      end
  end.

(** [o[name]] for a name that [Object.prototype] does not define: the own
    property, or [undefined].  The key generator reads the listed cookie and
    header names this way; none of them is inherited (see
    [listed_names_are_own]).  The configured cookie name is read with
    [get_member]. *)
Definition prop (o : gmap string JSValue) (name : string) : JSValue :=
  default JUndefined (o !! name).

(** [list.find(value => value !== undefined)]: the first element that is not
    [undefined], or [undefined] when there is none. *)
Fixpoint find_defined (l : list JSValue) : JSValue :=
  match l with
  | [] => JUndefined
  | JUndefined :: tl => find_defined tl
  | v :: _ => v
  end.

(** ** Routes and requests *)

(** [Route['cache']].  The source's union type restricts [type] to four
    literals; at run time it is a string that the [switch] of the key
    generator compares, and it is kept as one here.  [customCookie] is read
    for ['per-custom-cookie'] only. *)
Record CacheSpec := {
  expire : option JSNumber;
  type : string;
  customCookie : option string
}.

Record Route := {
  method : string;
  route : string;
  cache : option CacheSpec
}.

(** What the code uses of an Express request.  [cookies] is [None] when the
    property is [undefined] on the request (no cookie parser ran);
    [headers] is always an object.  Both mappings are plain objects, given
    by their own properties. *)
Record Request := {
  url : string;
  cookies : option (gmap string JSValue);
  headers : gmap string JSValue
}.

(** ** The world the code runs in *)

Inductive LogLevel := lvl_normal | lvl_debug | lvl_silent.

(** The second argument of [log], which is also the [console] method used. *)
Inductive Severity := sev_log | sev_warn | sev_error | sev_debug.

(** The store client, as far as the code uses it: the [isReady] flag and the
    reply of the server to a GET ([None] for [null]). *)
Record RedisClient := {
  isReady : bool;
  GET : string -> option string
}.

(** The function values that can sit in [res.send] and [res.json]: the
    framework's own, or the closures built at index.ts:64 and index.ts:77,
    with the variables they capture. *)
Inductive SendFn :=
| express_send
| cached_send (cacheKey : string) (r : Route).

Inductive JsonFn :=
| express_json
| cached_json (cacheKey : string) (r : Route) (originalJson : JsonFn).

Record Response := {
  send : SendFn;
  json : JsonFn;
  sendResponse : option SendFn
}.

(** Calls that leave the module: on the console, on the store client and on
    the framework's response.  The framework's [send], [json] and
    [setHeader] are recorded as calls, the way the mocks of index.test.ts
    record them; what they do beyond that is not part of this code.
    [Continue] is a call of a [next] that only records it. *)
Inductive Event :=
| Console (level : Severity) (text : string)
| RedisGet (key : string)
| RedisSet (key : string) (value : JSValue) (EX : JSNumber)
| SetHeader (name value : string)
| ExpressSend (body : JSValue)
| ExpressJson (body : JSValue)
| Continue.

Record World := {
  redis : option RedisClient;
  currentLogLevel : LogLevel;
  res : Response;
  trace : list Event
}.

Definition set_res (r : Response) (w : World) : World :=
  {| redis := redis w; currentLogLevel := currentLogLevel w;
     res := r; trace := trace w |}.

Definition set_redis (c : option RedisClient) (w : World) : World :=
  {| redis := c; currentLogLevel := currentLogLevel w;
     res := res w; trace := trace w |}.

Definition record (e : Event) (w : World) : World :=
  {| redis := redis w; currentLogLevel := currentLogLevel w;
     res := res w; trace := trace w ++ [e] |}.

(** ** Completions and the state monad *)

Definition M (A : Type) : Type := World -> Completion A * World.

Definition ret {A} (a : A) : M A := fun w => (Normal a, w).

Definition bind {A B} (m : M A) (k : A -> M B) : M B :=
  fun w =>
    match m w with
    | (Normal a, w') => k a w'
    | (Throws e, w') => (Throws e, w')
    | (Loops, w') => (Loops, w')
    end.

Definition throw {A} (e : JSError) : M A := fun w => (Throws e, w).
Definition diverge {A} : M A := fun w => (Loops, w).
Definition emit (e : Event) : M unit := fun w => (Normal tt, record e w).
Definition read {A} (f : World -> A) : M A := fun w => (Normal (f w), w).
Definition lift {A} (c : Completion A) : M A := fun w => (c, w).

Declare Scope js_scope.
Delimit Scope js_scope with js.
Notation "x <- m ;; k" := (bind m (fun x => k))
  (at level 100, m at next level, k at level 200, right associativity) : js_scope.
Notation "m ;; k" := (bind m (fun _ => k))
  (at level 100, k at level 200, right associativity) : js_scope.
Local Open Scope js_scope.

(** A call whose promise is dropped ([f(x);] on an [async] function, without
    [await]): a rejection does not reach the caller. *)
Definition floating (m : M unit) : M unit :=
  fun w =>
    match m w with
    | (Throws _, w') => (Normal tt, w')
    | other => other
    end.

(** [!redis || !redis.isReady] *)
Definition redis_unavailable (w : World) : bool :=
  match redis w with
  | None => true
  | Some c => negb (isReady c)
  end.

(** [await redis.get(key)] and [await redis.set(key, value, { EX })] on a
    client that exists.  Without a client the member access throws. *)
Definition redis_get (key : string) : M (option string) :=
  fun w =>
    match redis w with
    | None => (Throws (TypeError "Cannot read properties of null (reading 'get')"), w)
    | Some c => (Normal (GET c key), record (RedisGet key) w)
    end.

Definition redis_set (key : string) (value : JSValue) (EX : JSNumber) : M unit :=
  fun w =>
    match redis w with
    | None => (Throws (TypeError "Cannot read properties of null (reading 'set')"), w)
    | Some c => (Normal tt, record (RedisSet key value EX) w)
    end.

(** ** log.ts: the logger *)

Definition log_prefix : string := "🗄️ [Cache] ".

Definition log (message : string) (level : Severity) : M unit :=
  fun w =>
    match currentLogLevel w, level with
    | lvl_silent, _ => (Normal tt, w)
    | lvl_normal, sev_debug => (Normal tt, w)
    | _, _ => emit (Console level (log_prefix +:+ message)) w
    end.

(** ** The key generator *)

Definition commonAuthCookieNames : list string :=
  [ "authToken"; "accessToken"; "refreshToken"; "idToken"; "jwt"; "token";
    "sessionToken"; "auth_token"; "access_token"; "refresh_token";
    "bearer_token" ].

Definition commonAuthHeaderNames : list string :=
  [ "Authorization"; "X-Auth-Token"; "X-Access-Token"; "X-Refresh-Token";
    "X-ID-Token"; "X-API-key"; "Token"; "Auth-Token" ].

(** [names.map(name => cookies[name]).find(value => value !== undefined)] *)
Definition cookie_scan (c : gmap string JSValue) : JSValue :=
  find_defined (map (prop c) commonAuthCookieNames).

(** The whole right-hand side of [let authCookie = ... || null]. *)
Definition cookie_pass (c : gmap string JSValue) : JSValue :=
  js_or (cookie_scan c) JNull.

Definition header_pass (h : gmap string JSValue) : JSValue :=
  js_or (find_defined
           (map (fun name => prop h (toLowerCase name)) commonAuthHeaderNames))
        JNull.

(** [req.cookies[name]] throws when [req.cookies] is [undefined]; the first
    name read is ['authToken']. *)
Definition getAuthCookie (req : Request) : Completion JSValue :=
  match cookies req with
  | None =>
      Throws (TypeError
                "Cannot read properties of undefined (reading 'authToken')")
  | Some c =>
      let authCookie := cookie_pass c in
      let authCookie :=
        if negb (truthy authCookie) then header_pass (headers req)
        else authCookie in
      Normal authCookie
  end.

Definition dquote : string := String (ascii_of_nat 34) EmptyString.

Definition msg_no_auth_cookie : string :=
  "No auth cookie found in request. Cache will not be applied. Please use per-custom-cookie and set your custom cookie name.".

Definition msg_cookie_not_found (name : string) : string :=
  "Custom cookie " +:+ dquote +:+ name +:+ dquote
  +:+ " not found in request. Cache will not be applied.".

Definition msg_cookie_undefined : string :=
  "Custom cookie is not defined for per-custom-cookie cache type.".

(** The result is [Some key] for a string and [None] for [false].  (The
    source also binds [req.originalUrl || req.url] to a constant that it
    never reads; the ['per-request-url'] case reads [req.url].)  A template
    literal throws when its value does not convert to a string. *)
Definition generateCacheKey (r : Route) (req : Request) : M (option string) :=
  let method := method r in
  let routePath := route r in
  match cache r with
  | None => ret None
  | Some c =>
      if String.eqb (type c) "always" then
        ret (Some ("cache:" +:+ method +:+ ":" +:+ routePath))
      else if String.eqb (type c) "per-auth-token" then
        authCookie <- lift (getAuthCookie req);;
        if negb (truthy authCookie) then
          log msg_no_auth_cookie sev_warn;;
          ret None
        else
          token <- lift (ToString authCookie);;
          ret (Some ("cache:" +:+ method +:+ ":" +:+ routePath +:+ ":"
                     +:+ token))
      else if String.eqb (type c) "per-request-url" then
        ret (Some ("cache:" +:+ method +:+ ":" +:+ url req))
      else if String.eqb (type c) "per-custom-cookie" then
        match customCookie c with
        | Some name =>
            if negb (String.eqb name "") then
              let cookies := default ∅ (cookies req) in
              match get_member cookies name with
              | member_inherited text =>
                  ret (Some ("cache:" +:+ method +:+ ":" +:+ routePath +:+ ":"
                             +:+ text))
              | member_value v =>
                  let customCookieValue := js_or v (JStr "") in
                  if negb (truthy customCookieValue) then
                    log (msg_cookie_not_found name) sev_warn;;
                    ret None
                  else
                    text <- lift (ToString customCookieValue);;
                    ret (Some ("cache:" +:+ method +:+ ":" +:+ routePath
                               +:+ ":" +:+ text))
              end
            else
              (log msg_cookie_undefined sev_error;; ret None)
        | None =>
            log msg_cookie_undefined sev_error;;
            ret None
        end
      else ret None
  end.

(** ** index.ts: the middleware factory *)

(** The request handlers [cache] can return: the arrow functions of
    index.ts:41 and index.ts:48, and the [async] one of index.ts:51 with the
    route it captures. *)
Inductive RequestHandler :=
| pass_through
| unready_pass_through
| caching (r : Route).

(** A [next] that only records that it was called (the test's [jest.fn()]). *)
Definition recording_next : M unit := emit Continue.

Module index.

Definition DEFAULT_CACHE_TTL : JSNumber := Int 60.

(** [route.cache?.expire || DEFAULT_CACHE_TTL] *)
Definition resolved_ttl (r : Route) : JSNumber :=
  match cache r with
  | Some c =>
      match expire c with
      | Some n => if number_truthy n then n else DEFAULT_CACHE_TTL
      | None => DEFAULT_CACHE_TTL
      end
  | None => DEFAULT_CACHE_TTL
  end.

Definition msg_not_initialized : string :=
  "Redis client is not initialized. Please call setupCache first. Cache will not be applied and next function be called.".

Definition msg_key_failed : string :=
  "Cache key generation failed. Cache will not be applied.".

Section Request.

(** [JSON.parse] ([None] when it throws a [SyntaxError]) and
    [JSON.stringify] belong to the runtime; the development is parametric
    in them. *)
Variable JSON_parse : string -> option JSValue.
Variable JSON_stringify : JSValue -> JSValue.

(** The [next] of the request being served.  The closures put on the
    response capture it; one request is served at a time, so it is a
    parameter of their calls here instead of a component of the closure.
    Awaited and dropped promises are run in place. *)
Variable next : M unit.

(** A call of a function found in [res.send] or [res.sendResponse].
    [sendResponse] is what the closure's last statement,
    [res.sendResponse(body)], does with the body. *)
Definition call_send (sendResponse : JSValue -> M unit)
    (f : SendFn) (body : JSValue) : M unit :=
  match f with
  | express_send => emit (ExpressSend body)
  | cached_send cacheKey r =>
      unavailable <- read redis_unavailable;;
      if (unavailable : bool) then next
      else
        let body := if typeof_object body then JSON_stringify body
                    else body in
        redis_set cacheKey body (resolved_ttl r);;
        log ("Data cached for key: " +:+ cacheKey) sev_debug;;
        sendResponse body
  end.

(** [res.sendResponse(body)], read on the response when the closure runs.
    When the property holds such a closure itself (the middleware ran twice
    on one response), that closure calls itself for as long as the store is
    ready. *)
Definition call_sendResponse (body : JSValue) : M unit :=
  fun w =>
    match sendResponse (res w) with
    | None => (Throws (TypeError "res.sendResponse is not a function"), w)
    | Some f => call_send (fun _ => diverge) f body w
    end.

(** [res.send(body)] *)
Definition res_send (body : JSValue) : M unit :=
  fun w => call_send call_sendResponse (send (res w)) body w.

(** A call of a function found in [res.json]; the closure holds the
    function it replaced. *)
Fixpoint call_json (f : JsonFn) (body : JSValue) : M unit :=
  match f with
  | express_json => emit (ExpressJson body)
  | cached_json cacheKey r originalJson =>
      unavailable <- read redis_unavailable;;
      if (unavailable : bool) then next
      else
        redis_set cacheKey (JSON_stringify body) (resolved_ttl r);;
        log ("JSON Data cached for key: " +:+ cacheKey) sev_debug;;
        call_json originalJson body
  end.

(** [res.json(body)] *)
Definition res_json (body : JSValue) : M unit :=
  fun w => call_json (json (res w)) body w.

(** index.ts:63-82: keep the old [send] in [res.sendResponse] and put the
    two closures in place. *)
Definition install (cacheKey : string) (r : Route) : M unit :=
  fun w =>
    let old := res w in
    (Normal tt,
     set_res {| sendResponse := Some (send old);
                send := cached_send cacheKey r;
                json := cached_json cacheKey r (json old) |} w).

Definition key_failed : M unit :=
  log msg_key_failed sev_warn;;
  next.

(** The [async] handler of index.ts:51-94.  [!data] holds for [null] and for
    the empty string, which is the last case of the match on the reply. *)
Definition handle (r : Route) (req : Request) : M unit :=
  unavailable <- read redis_unavailable;;
  if (unavailable : bool) then next
  else
    cacheKey <- generateCacheKey r req;;
    match cacheKey with
    | None => key_failed
    | Some cacheKey =>
        if String.eqb cacheKey "" then key_failed
        else
          data <- redis_get cacheKey;;
          match data with
          | Some (String _ _ as data) =>
              log ("Cache hit for key: " +:+ cacheKey) sev_debug;;
              emit (SetHeader "X-Cache" "HIT");;
              let dataStr := data in
              if startsWith dataStr "{" || startsWith dataStr "[" then
                match JSON_parse dataStr with
                | Some value => floating (res_json value)
                | None =>
                    throw (SyntaxError "JSON.parse: not valid JSON")
                end
              else floating (res_send (JStr data))
          | _ =>
              log ("Cache miss for key: " +:+ cacheKey) sev_debug;;
              install cacheKey r;;
              next
          end
    end.

(** A call of a handler that [cache] returned. *)
Definition invoke (h : RequestHandler) (req : Request) : M unit :=
  match h with
  | pass_through => next
  | unready_pass_through => next
  | caching r => handle r req
  end.

End Request.

Definition cacheMiddleware (r : Route) : M RequestHandler :=
  unavailable <- read redis_unavailable;;
  if (unavailable : bool) then
    log msg_not_initialized sev_error;;
    ret unready_pass_through
  else ret (caching r).

Definition cache (r : Route) : M RequestHandler :=
  match cache r with
  | Some _ => cacheMiddleware r
  | None => ret pass_through
  end.

End index.

(** ** Worlds and inputs used by the examples *)

(** The response as the framework hands it over. *)
Definition fresh_response : Response :=
  {| send := express_send; json := express_json; sendResponse := None |}.

(** The world of index.test.ts after [setupCache({}, 'debug')]: a ready
    client whose GET replies are given, the debug level, nothing called
    yet. *)
Definition test_world (reply : string -> option string) : World :=
  {| redis := Some {| isReady := true; GET := reply |};
     currentLogLevel := lvl_debug;
     res := fresh_response;
     trace := [] |}.

Definition route_of (m path : string) (c : CacheSpec) : Route :=
  {| method := m; route := path; cache := Some c |}.

Definition spec_of (ty : string) (e : option JSNumber) : CacheSpec :=
  {| expire := e; type := ty; customCookie := None |}.

(** The request of index.test.ts. *)
Definition users_request : Request :=
  {| url := "/users"; cookies := Some ∅; headers := ∅ |}.

(** A runtime for the examples: the values of [JSON.parse] and
    [JSON.stringify] on the texts and values the examples use (elsewhere
    these two functions are not meant). *)
Definition text_a1 : string := "{" +:+ dquote +:+ "a" +:+ dquote +:+ ":1}".

Definition example_parse (s : string) : option JSValue :=
  if String.eqb s text_a1 then Some (JObj [("a", JNum (Int 1))]) else None.

Definition example_stringify (v : JSValue) : JSValue :=
  match v with
  | JObj [("a", JNum (Safe {| int_value := 1%Z |}))] => JStr text_a1
  | _ => JUndefined
  end.

(** The world after a call of [log]. *)
Definition logged (level : Severity) (message : string) (w : World) : World :=
  snd (log message level w).

(** The world after [await redis.set(key, value, { EX })] with the route's
    resolved TTL and the debug message that follows it in both closures. *)
Definition stored (key : string) (value : JSValue) (r : Route)
    (message : string) (w : World) : World :=
  logged sev_debug (message +:+ key)
    (record (RedisSet key value (index.resolved_ttl r)) w).

(** The recognised values of [type]. *)
Definition recognized_types : list string :=
  [ "always"; "per-auth-token"; "per-request-url"; "per-custom-cookie" ].

(** Modelled on the specification's wording of the cookie pass, to compare
    with [cookie_pass]: the value of the first name of the list that is
    defined on the mapping, if any. *)
Fixpoint first_defined_cookie (names : list string)
    (c : gmap string JSValue) : option JSValue :=
  match names with
  | [] => None
  | name :: tl =>
      match c !! name with
      | Some JUndefined | None => first_defined_cookie tl c
      | Some v => Some v
      end
  end.

(** [setLogLevel(level)] of log.ts:5-7: the assignment to the module
    variable. *)
Definition set_level (level : LogLevel) (w : World) : World :=
  {| redis := redis w; currentLogLevel := level;
     res := res w; trace := trace w |}.

Definition setLogLevel (level : LogLevel) : M unit :=
  fun w => (Normal tt, set_level level w).

(** The header names as [getAuthCookie] looks them up. *)
Definition lowered_header_names : list string :=
  map toLowerCase commonAuthHeaderNames.

(** ** Properties *)

(** *** The logger *)

Lemma log_normal message level w :
  log message level w = (Normal tt, logged level message w).
Proof.
  unfold logged, log, emit.
  destruct (currentLogLevel w), level; reflexivity.
Qed.

Lemma logged_frame level message w :
  redis (logged level message w) = redis w /\
  currentLogLevel (logged level message w) = currentLogLevel w /\
  res (logged level message w) = res w.
Proof.
  unfold logged, log, emit.
  destruct (currentLogLevel w) eqn:E, level; cbn; auto.
Qed.

(** A message of a severity other than debug reaches the console unless the
    level is silent. *)
Lemma logged_reported level message w :
  level <> sev_debug ->
  logged level message w =
    match currentLogLevel w with
    | lvl_silent => w
    | _ => record (Console level (log_prefix +:+ message)) w
    end.
Proof.
  intros Hd. unfold logged, log, emit.
  destruct (currentLogLevel w), level; try reflexivity; congruence.
Qed.

(** A debug message reaches the console at the debug level only. *)
Lemma logged_debug message w :
  logged sev_debug message w =
    match currentLogLevel w with
    | lvl_debug => record (Console sev_debug (log_prefix +:+ message)) w
    | _ => w
    end.
Proof.
  unfold logged, log, emit. destruct (currentLogLevel w); reflexivity.
Qed.

Lemma redis_unavailable_logged level message w :
  redis_unavailable (logged level message w) = redis_unavailable w.
Proof.
  unfold redis_unavailable.
  destruct (logged_frame level message w) as [-> _]. reflexivity.
Qed.

Lemma redis_unavailable_record e w :
  redis_unavailable (record e w) = redis_unavailable w.
Proof. reflexivity. Qed.

Lemma ready_client w :
  redis_unavailable w = false ->
  exists c, redis w = Some c /\ isReady c = true.
Proof.
  unfold redis_unavailable. destruct (redis w) as [c|]; [|discriminate].
  intros H. exists c. split; [reflexivity|].
  destruct (isReady c); [reflexivity|discriminate].
Qed.

Lemma client_ready w c :
  redis w = Some c -> isReady c = true -> redis_unavailable w = false.
Proof. unfold redis_unavailable. intros -> ->. reflexivity. Qed.

(** *** The key generator *)

Lemma type_not_recognized c :
  ~ In (type c) recognized_types ->
  String.eqb (type c) "always" = false /\
  String.eqb (type c) "per-auth-token" = false /\
  String.eqb (type c) "per-request-url" = false /\
  String.eqb (type c) "per-custom-cookie" = false.
Proof.
  intros Hn. repeat split; apply String.eqb_neq; intros E;
    apply Hn; rewrite E; simpl; tauto.
Qed.

(** C9: for the per-request-url variant the key is
    [cache:<method>:<request URL>]; the declared route path is not part of
    it, so two routes that differ only in their path derive the same key for
    every request. *)
Theorem per_request_url_key_ignores_route_path
    (r1 r2 : Route) (c : CacheSpec) (req : Request) (w : World) :
  method r1 = method r2 ->
  cache r1 = Some c ->
  cache r2 = Some c ->
  type c = "per-request-url" ->
  generateCacheKey r1 req w
    = (Normal (Some ("cache:" +:+ method r1 +:+ ":" +:+ url req)), w) /\
  generateCacheKey r2 req w = generateCacheKey r1 req w.
Proof.
  intros Hm H1 H2 Ht.
  assert (K : forall r, cache r = Some c ->
            generateCacheKey r req w
              = (Normal (Some ("cache:" +:+ method r +:+ ":" +:+ url req)), w)).
  { intros r Hr. unfold generateCacheKey. rewrite Hr, Ht. reflexivity. }
  split.
  - apply K, H1.
  - rewrite (K r1 H1), (K r2 H2), Hm. reflexivity.
Qed.

(** Two routes with different paths, [/search] and [/products], collide on
    the key [cache:GET:/list?page=2]. *)
Lemma per_request_url_key_collides :
  let c := spec_of "per-request-url" None in
  let r1 := route_of "GET" "/search" c in
  let r2 := route_of "GET" "/products" c in
  let req := {| url := "/list?page=2"; cookies := None; headers := ∅ |} in
  let w := test_world (fun _ => None) in
  route r1 <> route r2 /\
  generateCacheKey r1 req w = (Normal (Some "cache:GET:/list?page=2"), w) /\
  generateCacheKey r2 req w = generateCacheKey r1 req w.
Proof.
  intros c r1 r2 req w. split; [discriminate|].
  exact (per_request_url_key_ignores_route_path r1 r2 c req w
           eq_refl eq_refl eq_refl eq_refl).
Defined.

(** A derived key leaves the world as it was and is never the empty
    string. *)
Lemma generateCacheKey_some r req w key w' :
  generateCacheKey r req w = (Normal (Some key), w') ->
  w' = w /\ exists suffix, key = "cache:" +:+ suffix.
Proof.
  unfold generateCacheKey.
  destruct (cache r) as [c|]; [|discriminate].
  destruct (String.eqb (type c) "always").
  { intros [= <- <-]; eauto. }
  destruct (String.eqb (type c) "per-auth-token").
  { unfold bind, lift. destruct (getAuthCookie req) as [v| |]; try discriminate.
    destruct (truthy v); cbn.
    - destruct (ToString v) as [text| |]; try discriminate.
      intros [= <- <-]; eauto.
    - rewrite log_normal. discriminate. }
  destruct (String.eqb (type c) "per-request-url").
  { intros [= <- <-]; eauto. }
  destruct (String.eqb (type c) "per-custom-cookie"); [|discriminate].
  destruct (customCookie c) as [name|].
  - destruct (String.eqb name ""); cbn.
    + unfold bind. rewrite log_normal. discriminate.
    + destruct (get_member _ name) as [v|text].
      * destruct (truthy _); cbn.
        -- unfold bind, lift. destruct (ToString _) as [text| |];
             try discriminate. intros [= <- <-]; eauto.
        -- unfold bind. rewrite log_normal. discriminate.
      * intros [= <- <-]; eauto.
  - unfold bind. rewrite log_normal. discriminate.
Qed.

(** *** The handler, up to the lookup *)

Section HandlerSteps.

Variable JSON_parse : string -> option JSValue.
Variable JSON_stringify : JSValue -> JSValue.
Variable next : M unit.

Local Abbreviation handle := (index.handle JSON_parse JSON_stringify next).

Lemma handle_unavailable r req w :
  redis_unavailable w = true -> handle r req w = next w.
Proof.
  intros H. unfold index.handle, bind, read. rewrite H. reflexivity.
Qed.

Lemma handle_key_failed r req w w' :
  redis_unavailable w = false ->
  generateCacheKey r req w = (Normal None, w') ->
  handle r req w = next (logged sev_warn index.msg_key_failed w').
Proof.
  intros H K. unfold index.handle, bind, read. rewrite H, K.
  unfold index.key_failed, bind. rewrite log_normal. reflexivity.
Qed.

Lemma handle_key_throws r req w e w' :
  redis_unavailable w = false ->
  generateCacheKey r req w = (Throws e, w') ->
  handle r req w = (Throws e, w').
Proof.
  intros H K. unfold index.handle, bind, read. rewrite H, K. reflexivity.
Qed.

(** With a ready store and a derived key, the handler reads the key and
    goes on according to the reply. *)
Lemma handle_lookup r req w c key :
  redis w = Some c ->
  isReady c = true ->
  generateCacheKey r req w = (Normal (Some key), w) ->
  handle r req w =
    let w0 := record (RedisGet key) w in
    match GET c key with
    | Some (String _ _ as data) =>
        let w1 := record (SetHeader "X-Cache" "HIT")
                    (logged sev_debug ("Cache hit for key: " +:+ key) w0) in
        if startsWith data "{" || startsWith data "[" then
          match JSON_parse data with
          | Some value =>
              floating (index.res_json JSON_stringify next value) w1
          | None => (Throws (SyntaxError "JSON.parse: not valid JSON"), w1)
          end
        else floating (index.res_send JSON_stringify next (JStr data)) w1
    | _ =>
        next (snd (index.install key r
                (logged sev_debug ("Cache miss for key: " +:+ key) w0)))
    end.
Proof.
  intros Hc Hr K.
  destruct (generateCacheKey_some _ _ _ _ _ K) as [_ [suffix ->]].
  unfold index.handle, bind, read.
  rewrite (client_ready _ _ Hc Hr), K.
  change (String.eqb ("cache:" +:+ suffix) "") with false. cbn iota.
  unfold redis_get. rewrite Hc.
  destruct (GET c _) as [[|a s]|]; cbn zeta.
  - rewrite log_normal. reflexivity.
  - rewrite log_normal. unfold emit.
    destruct (startsWith _ _ || startsWith _ _);
      [destruct (JSON_parse _)|]; reflexivity.
  - rewrite log_normal. reflexivity.
Qed.

End HandlerSteps.

(** C10: when the cache specification is present but its type is none of
    the four recognised ones, key derivation returns the not-cacheable
    signal and logs nothing; the handler (with a ready store) then logs the
    generic key-generation warning, and nothing else, and continues the
    pipeline. *)
Theorem unrecognized_type_is_silently_not_cacheable
    (JSON_parse : string -> option JSValue)
    (JSON_stringify : JSValue -> JSValue) (next : M unit)
    (r : Route) (c : CacheSpec) (req : Request) (w : World) :
  cache r = Some c ->
  ~ In (type c) recognized_types ->
  generateCacheKey r req w = (Normal None, w) /\
  (redis_unavailable w = false ->
   index.handle JSON_parse JSON_stringify next r req w
     = next (logged sev_warn index.msg_key_failed w)) /\
  (currentLogLevel w <> lvl_silent ->
   logged sev_warn index.msg_key_failed w
     = record (Console sev_warn (log_prefix +:+ index.msg_key_failed)) w).
Proof.
  intros Hc Hn.
  destruct (type_not_recognized c Hn) as (E1 & E2 & E3 & E4).
  assert (K : generateCacheKey r req w = (Normal None, w)).
  { unfold generateCacheKey. rewrite Hc, E1, E2, E3, E4. reflexivity. }
  split; [exact K|]. split.
  - intros Hready. apply handle_key_failed; assumption.
  - intros Hl. rewrite logged_reported by discriminate.
    destruct (currentLogLevel w); congruence.
Qed.

(** A route of type ['per-user'] on the test's world: no key, and the trace
    holds the generic warning followed by the continuation. *)
Lemma unrecognized_type_example :
  let c := spec_of "per-user" None in
  let r := route_of "GET" "/users" c in
  let w := test_world (fun _ => None) in
  generateCacheKey r users_request w = (Normal None, w) /\
  trace (snd (index.handle example_parse example_stringify recording_next
                r users_request w))
    = [Console sev_warn (log_prefix +:+ index.msg_key_failed); Continue].
Proof.
  intros c r w.
  assert (Hn : ~ In (type c) recognized_types).
  { simpl. intros [H|[H|[H|[H|[]]]]]; discriminate H. }
  destruct (unrecognized_type_is_silently_not_cacheable
              example_parse example_stringify recording_next
              r c users_request w eq_refl Hn) as (K & H & L).
  split; [exact K|].
  rewrite (H eq_refl), (L ltac:(discriminate)). reflexivity.
Defined.



(** *** Auth-token discovery *)

Lemma find_defined_first_cookie names (c : gmap string JSValue) :
  find_defined (map (prop c) names)
    = default JUndefined (first_defined_cookie names c).
Proof.
  induction names as [|name tl IH]; [reflexivity|].
  cbn [map find_defined first_defined_cookie].
  change (prop c name) with (default JUndefined (c !! name)).
  destruct (c !! name) as [[]|]; cbn; solve [reflexivity | exact IH].
Qed.

Lemma first_defined_cookie_defined names (c : gmap string JSValue) v :
  first_defined_cookie names c = Some v -> v <> JUndefined.
Proof.
  induction names as [|name tl IH]; [discriminate|].
  cbn [first_defined_cookie].
  destruct (c !! name) as [u|]; [|exact IH].
  destruct u; solve [exact IH | intros [= <-]; discriminate].
Qed.

(** C3, as stated, fails: with [authToken] set to the empty string the first
    defined cookie value is the empty string, but the cookie pass yields
    [null], and discovery goes on to the headers. *)
Lemma cookie_pass_drops_empty_string :
  let c : gmap string JSValue := {[ "authToken" := JStr "" ]} in
  let req := {| url := "/profile"; cookies := Some c;
                headers := {[ "authorization" := JStr "Bearer t" ]} |} in
  first_defined_cookie commonAuthCookieNames c = Some (JStr "") /\
  cookie_pass c = JNull /\
  cookie_pass c <> JStr "" /\
  getAuthCookie req = Normal (JStr "Bearer t").
Proof.
  intros c req. repeat split. discriminate.
Qed.

(** C3, amended: the scan of the cookie names stops at the first name whose
    value is defined, whatever that value is (later names are not
    consulted); the cookie pass returns that value when it is truthy, and
    [null] when it is falsy (the empty string, for one) or when no name is
    defined; on [null] discovery continues with the header pass. *)
Theorem cookie_pass_first_defined (c : gmap string JSValue) :
  (forall v, first_defined_cookie commonAuthCookieNames c = Some v ->
     cookie_scan c = v /\
     cookie_pass c = (if truthy v then v else JNull)) /\
  (first_defined_cookie commonAuthCookieNames c = None ->
     cookie_pass c = JNull) /\
  (forall u h,
     getAuthCookie {| url := u; cookies := Some c; headers := h |}
       = Normal (if truthy (cookie_pass c) then cookie_pass c
                 else header_pass h)).
Proof.
  split; [|split].
  - intros v H. unfold cookie_pass, cookie_scan.
    rewrite find_defined_first_cookie, H. split; reflexivity.
  - intros H. unfold cookie_pass, cookie_scan.
    rewrite find_defined_first_cookie, H. reflexivity.
  - intros u h. unfold getAuthCookie. cbn [cookies headers].
    destruct (truthy (cookie_pass c)); reflexivity.
Qed.

(** A request with [jwt=abc] only: the cookie pass returns ["abc"] although
    an [Authorization] header is present; and one with an empty
    [authToken] before [jwt=abc]: the scan stops at the empty string, the
    pass returns [null], and the header is used. *)
Lemma cookie_pass_example :
  let only_jwt : gmap string JSValue := {[ "jwt" := JStr "abc" ]} in
  let empty_first : gmap string JSValue :=
    {[ "authToken" := JStr ""; "jwt" := JStr "abc" ]} in
  let h : gmap string JSValue := {[ "authorization" := JStr "Bearer t" ]} in
  (cookie_scan only_jwt = JStr "abc" /\ cookie_pass only_jwt = JStr "abc") /\
  (cookie_scan empty_first = JStr "" /\ cookie_pass empty_first = JNull) /\
  getAuthCookie {| url := "/profile"; cookies := Some only_jwt; headers := h |}
    = Normal (JStr "abc") /\
  getAuthCookie {| url := "/profile"; cookies := Some empty_first;
                   headers := h |}
    = Normal (JStr "Bearer t").
Proof.
  intros only_jwt empty_first h.
  destruct (cookie_pass_first_defined only_jwt) as (A & _ & G1).
  destruct (cookie_pass_first_defined empty_first) as (B & _ & G2).
  split; [exact (A (JStr "abc") eq_refl)|].
  split; [exact (B (JStr "") eq_refl)|].
  split; [exact (G1 "/profile" h)|exact (G2 "/profile" h)].
Defined.

(** *** The closures put on the response *)

Section Wrappers.

Variable JSON_stringify : JSValue -> JSValue.

Local Abbreviation call_send := (index.call_send JSON_stringify).
Local Abbreviation call_json := (index.call_json JSON_stringify).
Local Abbreviation res_send := (index.res_send JSON_stringify).
Local Abbreviation res_json := (index.res_json JSON_stringify).

Lemma stored_frame key value r message w :
  redis (stored key value r message w) = redis w /\
  res (stored key value r message w) = res w /\
  exists rest,
    trace (stored key value r message w)
      = trace w ++ RedisSet key value (index.resolved_ttl r) :: rest.
Proof.
  unfold stored. rewrite logged_debug.
  destruct (currentLogLevel _); cbn; repeat split; eauto;
    rewrite <- app_assoc; eauto.
Qed.

Lemma redis_unavailable_stored key value r message w :
  redis_unavailable (stored key value r message w) = redis_unavailable w.
Proof.
  unfold redis_unavailable.
  destruct (stored_frame key value r message w) as [-> _]. reflexivity.
Qed.

(** What the raw-write closure does with a ready store, up to its call of
    [res.sendResponse]. *)
Lemma call_send_ready next k key r body w :
  redis_unavailable w = false ->
  call_send next k (cached_send key r) body w =
    let body' := if typeof_object body then JSON_stringify body else body in
    k body' (stored key body' r "Data cached for key: " w).
Proof.
  intros H. destruct (ready_client w H) as (c & Hc & _).
  unfold index.call_send, bind, read, redis_set. rewrite H, Hc.
  rewrite log_normal. reflexivity.
Qed.

Lemma call_send_unavailable next k key r body w :
  redis_unavailable w = true ->
  call_send next k (cached_send key r) body w = next w.
Proof.
  intros H. unfold index.call_send, bind, read. rewrite H. reflexivity.
Qed.

Lemma call_json_ready next key r orig body w :
  redis_unavailable w = false ->
  call_json next (cached_json key r orig) body w =
    call_json next orig body
      (stored key (JSON_stringify body) r "JSON Data cached for key: " w).
Proof.
  intros H. destruct (ready_client w H) as (c & Hc & _).
  cbn [index.call_json]. unfold bind, read, redis_set. rewrite H, Hc.
  rewrite log_normal. reflexivity.
Qed.

Lemma call_json_unavailable next key r orig body w :
  redis_unavailable w = true ->
  call_json next (cached_json key r orig) body w = next w.
Proof.
  intros H. cbn [index.call_json]. unfold bind, read. rewrite H.
  reflexivity.
Qed.

(** With a ready store no closure calls [next], and every call only adds
    to the trace. *)
Lemma call_json_ready_frame next next' f body w :
  redis_unavailable w = false ->
  call_json next f body w = call_json next' f body w /\
  exists rest, trace (snd (call_json next f body w)) = trace w ++ rest.
Proof.
  revert w. induction f as [|key r orig IH]; intros w H.
  - split; [reflexivity|]. cbn. eauto.
  - rewrite !call_json_ready by exact H.
    set (w' := stored _ _ _ _ w).
    assert (H' : redis_unavailable w' = false)
      by (unfold w'; rewrite redis_unavailable_stored; exact H).
    destruct (IH w' H') as [E [rest Hrest]]. split; [exact E|].
    rewrite Hrest. unfold w'.
    destruct (stored_frame key (JSON_stringify body) r
                "JSON Data cached for key: " w) as (_ & _ & rest0 & ->).
    rewrite <- app_assoc. eauto.
Qed.

Lemma call_send_ready_frame next next' k f body w :
  redis_unavailable w = false ->
  (forall b w0, exists rest, trace (snd (k b w0)) = trace w0 ++ rest) ->
  call_send next k f body w = call_send next' k f body w /\
  exists rest, trace (snd (call_send next k f body w)) = trace w ++ rest.
Proof.
  intros H Hk. destruct f as [|key r].
  - split; [reflexivity|]. cbn. eauto.
  - rewrite !call_send_ready by exact H. cbn zeta. split; [reflexivity|].
    set (b := if typeof_object body then _ else _).
    destruct (Hk b (stored key b r "Data cached for key: " w))
      as [rest ->].
    destruct (stored_frame key b r "Data cached for key: " w)
      as (_ & _ & rest0 & ->).
    rewrite <- app_assoc. eauto.
Qed.

Lemma call_sendResponse_ready_frame next next' body w :
  redis_unavailable w = false ->
  index.call_sendResponse JSON_stringify next body w
    = index.call_sendResponse JSON_stringify next' body w /\
  exists rest,
    trace (snd (index.call_sendResponse JSON_stringify next body w))
      = trace w ++ rest.
Proof.
  intros H. unfold index.call_sendResponse.
  destruct (sendResponse (res w)) as [f|].
  - apply call_send_ready_frame; [exact H|].
    intros b w0. exists []. cbn. symmetry. apply app_nil_r.
  - split; [reflexivity|]. exists []. cbn. symmetry. apply app_nil_r.
Qed.

Lemma res_send_ready_frame next next' body w :
  redis_unavailable w = false ->
  res_send next body w = res_send next' body w /\
  exists rest, trace (snd (res_send next body w)) = trace w ++ rest.
Proof.
  intros H. unfold index.res_send. destruct (send (res w)) as [|key r].
  - split; [reflexivity|]. cbn. eauto.
  - rewrite !call_send_ready by exact H. cbn zeta.
    set (b := if typeof_object body then _ else _).
    set (w' := stored key b r "Data cached for key: " w).
    assert (H' : redis_unavailable w' = false)
      by (unfold w'; rewrite redis_unavailable_stored; exact H).
    destruct (call_sendResponse_ready_frame next next' b w' H')
      as [E [rest Hrest]].
    split; [exact E|]. rewrite Hrest. unfold w'.
    destruct (stored_frame key b r "Data cached for key: " w)
      as (_ & _ & rest0 & ->).
    rewrite <- app_assoc. eauto.
Qed.

Lemma res_json_ready_frame next next' body w :
  redis_unavailable w = false ->
  res_json next body w = res_json next' body w /\
  exists rest, trace (snd (res_json next body w)) = trace w ++ rest.
Proof. intros H. apply call_json_ready_frame, H. Qed.

End Wrappers.

(** *** The factory and the handler *)

(** C8: for a route without a cache specification the factory touches
    nothing and returns a handler whose every call is exactly a call of
    [next] on the unchanged world: no store read or write, no change to the
    response, and the pipeline continues. *)
Theorem absent_cache_is_pass_through
    (JSON_parse : string -> option JSValue)
    (JSON_stringify : JSValue -> JSValue) (r : Route) (w : World) :
  cache r = None ->
  exists h,
    index.cache r w = (Normal h, w) /\
    forall (next : M unit) (req : Request) (w0 : World),
      index.invoke JSON_parse JSON_stringify next h req w0 = next w0.
Proof.
  intros Hc. exists pass_through. split.
  - unfold index.cache. rewrite Hc. reflexivity.
  - reflexivity.
Qed.

(** A route without [cache], on a world whose store would reply with a
    cached body: the trace holds the continuation only and the response is
    the one the framework handed over. *)
Lemma absent_cache_example :
  let r := {| method := "GET"; route := "/users"; cache := None |} in
  let w := test_world (fun _ => Some "cached-body") in
  exists h,
    index.cache r w = (Normal h, w) /\
    index.invoke example_parse example_stringify recording_next h
      users_request w
      = (Normal tt,
         {| redis := redis w; currentLogLevel := lvl_debug;
            res := fresh_response; trace := [Continue] |}).
Proof.
  intros r w.
  destruct (absent_cache_is_pass_through example_parse example_stringify r w
              eq_refl) as (h & Hh & Hcall).
  exists h. split; [exact Hh|]. rewrite Hcall. reflexivity.
Defined.

(** C2, on the code: when the raw-write closure runs and the store is not
    ready, the closure ends in a call of [next] on the unchanged world: the
    store write is skipped, but the body is not handed to the original
    raw-write, and the pipeline is continued a second time. *)
Theorem raw_wrapper_unready_calls_next
    (JSON_stringify : JSValue -> JSValue) (next : M unit)
    (key : string) (r : Route) (body : JSValue) (w : World) :
  send (res w) = cached_send key r ->
  redis_unavailable w = true ->
  index.res_send JSON_stringify next body w = next w.
Proof.
  intros Hs Hu. unfold index.res_send. rewrite Hs.
  apply call_send_unavailable, Hu.
Qed.

(** The miss of index.test.ts, then the client stops being ready, then the
    handler sends ["hello"]: the whole trace is the lookup, the miss
    message, the continuation and a second continuation; nothing is stored
    and nothing is sent. *)
Lemma raw_wrapper_unready_example :
  let r := route_of "GET" "/users" (spec_of "always" (Some (Int 120))) in
  let w1 := snd (index.handle example_parse example_stringify recording_next
                   r users_request (test_world (fun _ => None))) in
  let w2 := set_redis (Some {| isReady := false; GET := fun _ => None |}) w1 in
  trace (snd (index.res_send example_stringify recording_next
                (JStr "hello") w2))
    = [RedisGet "cache:GET:/users";
       Console sev_debug
         (log_prefix +:+ "Cache miss for key: cache:GET:/users");
       Continue; Continue].
Proof.
  intros r w1 w2.
  rewrite (raw_wrapper_unready_calls_next example_stringify recording_next
             "cache:GET:/users" r (JStr "hello") w2 eq_refl eq_refl).
  reflexivity.
Defined.

(** C7: both closures pass [route.cache?.expire || 60] as the TTL of the
    [set] they make: 60 when [expire] is omitted, 0 or otherwise falsy, the
    configured number when it is truthy. *)
Theorem wrappers_store_with_resolved_ttl
    (JSON_stringify : JSValue -> JSValue) (next : M unit)
    (r : Route) (c : CacheSpec) (key : string) (orig : JsonFn)
    (body : JSValue) (w : World) :
  cache r = Some c ->
  redis_unavailable w = false ->
  send (res w) = cached_send key r ->
  json (res w) = cached_json key r orig ->
  (exists value rest,
     trace (snd (index.res_send JSON_stringify next body w))
       = trace w ++ RedisSet key value (index.resolved_ttl r) :: rest) /\
  (exists rest,
     trace (snd (index.res_json JSON_stringify next body w))
       = trace w
         ++ RedisSet key (JSON_stringify body) (index.resolved_ttl r) :: rest) /\
  (expire c = None \/ expire c = Some (Int 0) \/ expire c = Some NaN ->
   index.resolved_ttl r = Int 60) /\
  (forall n, expire c = Some n -> number_truthy n = true ->
   index.resolved_ttl r = n).
Proof.
  intros Hc Hr Hs Hj. repeat split.
  - unfold index.res_send. rewrite Hs, call_send_ready by exact Hr. cbn zeta.
    set (b := if typeof_object body then _ else _).
    set (w' := stored key b r "Data cached for key: " w).
    assert (H' : redis_unavailable w' = false)
      by (unfold w'; rewrite redis_unavailable_stored; exact Hr).
    destruct (call_sendResponse_ready_frame JSON_stringify next next b w' H')
      as [_ [rest ->]]. unfold w'.
    destruct (stored_frame key b r "Data cached for key: " w)
      as (_ & _ & rest0 & ->).
    exists b, (rest0 ++ rest). rewrite <- app_assoc. reflexivity.
  - unfold index.res_json. rewrite Hj, call_json_ready by exact Hr.
    set (w' := stored _ _ _ _ w).
    assert (H' : redis_unavailable w' = false)
      by (unfold w'; rewrite redis_unavailable_stored; exact Hr).
    destruct (call_json_ready_frame JSON_stringify next next orig body w' H')
      as [_ [rest ->]]. unfold w'.
    destruct (stored_frame key (JSON_stringify body) r
                "JSON Data cached for key: " w) as (_ & _ & rest0 & ->).
    exists (rest0 ++ rest). rewrite <- app_assoc. reflexivity.
  - unfold index.resolved_ttl. rewrite Hc.
    intros [-> | [-> | ->]]; reflexivity.
  - intros n Hn Ht. unfold index.resolved_ttl. rewrite Hc, Hn, Ht.
    reflexivity.
Qed.

(** A route whose [expire] is omitted, after the miss of index.test.ts: both
    closures store with a TTL of 60. *)
Lemma default_ttl_example :
  let c := spec_of "always" None in
  let r := route_of "GET" "/users" c in
  let w1 := snd (index.handle example_parse example_stringify recording_next
                   r users_request (test_world (fun _ => None))) in
  let a1 := JObj [("a", JNum (Int 1))] in
  (exists value rest,
     trace (snd (index.res_send example_stringify recording_next a1 w1))
       = trace w1 ++ RedisSet "cache:GET:/users" value (Int 60) :: rest) /\
  (exists rest,
     trace (snd (index.res_json example_stringify recording_next a1 w1))
       = trace w1 ++ RedisSet "cache:GET:/users" (JStr text_a1) (Int 60)
                     :: rest).
Proof.
  intros c r w1 a1.
  destruct (wrappers_store_with_resolved_ttl example_stringify recording_next
              r c "cache:GET:/users" express_json a1 w1
              eq_refl eq_refl eq_refl eq_refl) as (S & J & _ & _).
  split; [exact S|exact J].
Defined.

(** C4: with a ready store, a derived key and an empty reply to the lookup,
    the handler puts the two closures on the response (keeping the old
    [send] in [res.sendResponse]) and then calls [next] on that world; when
    the handler of the route later sends a string body through [res.send],
    with the store still ready, the store is asked to set the derived key to
    exactly that body with the route's resolved TTL, and the framework's own
    [send] then receives the same body. *)
Theorem miss_installs_wrappers_then_continues
    (JSON_parse : string -> option JSValue)
    (JSON_stringify : JSValue -> JSValue) (next : M unit)
    (r : Route) (req : Request) (key : string) (c : RedisClient)
    (w : World) :
  redis w = Some c ->
  isReady c = true ->
  generateCacheKey r req w = (Normal (Some key), w) ->
  GET c key = None \/ GET c key = Some "" ->
  let w1 := snd (index.install key r
                   (logged sev_debug ("Cache miss for key: " +:+ key)
                      (record (RedisGet key) w))) in
  index.handle JSON_parse JSON_stringify next r req w = next w1 /\
  res w1 = {| send := cached_send key r;
              json := cached_json key r (json (res w));
              sendResponse := Some (send (res w)) |} /\
  (forall (body : string) (w2 : World),
     res w2 = res w1 ->
     send (res w) = express_send ->
     redis_unavailable w2 = false ->
     index.res_send JSON_stringify next (JStr body) w2
       = (Normal tt,
          record (ExpressSend (JStr body))
            (logged sev_debug ("Data cached for key: " +:+ key)
               (record (RedisSet key (JStr body) (index.resolved_ttl r))
                  w2)))).
Proof.
  intros Hc Hr K Hget w1.
  assert (Hres : res w1 = {| send := cached_send key r;
                             json := cached_json key r (json (res w));
                             sendResponse := Some (send (res w)) |}).
  { unfold w1, index.install. cbn [snd set_res res].
    destruct (logged_frame sev_debug ("Cache miss for key: " +:+ key)
                (record (RedisGet key) w)) as (_ & _ & ->).
    reflexivity. }
  split; [|split].
  - rewrite (handle_lookup JSON_parse JSON_stringify next r req w c key Hc Hr K).
    cbn zeta. destruct Hget as [-> | ->]; reflexivity.
  - exact Hres.
  - intros body w2 H2 Hfresh Hready.
    unfold index.res_send. rewrite H2, Hres. cbn [send].
    rewrite call_send_ready by exact Hready. cbn zeta.
    cbn [typeof_object]. unfold index.call_sendResponse.
    destruct (stored_frame key (JStr body) r "Data cached for key: " w2)
      as (_ & -> & _).
    rewrite H2, Hres. cbn [sendResponse]. rewrite Hfresh. reflexivity.
Qed.

(** The first test of index.test.ts: route [GET /users], type [always],
    [expire] 120, a lookup that replies [null], then [res.send('hello')]. *)
Lemma miss_example :
  let r := route_of "GET" "/users" (spec_of "always" (Some (Int 120))) in
  let w := test_world (fun _ => None) in
  let w1 := snd (index.handle example_parse example_stringify recording_next
                   r users_request w) in
  trace w1
    = [RedisGet "cache:GET:/users";
       Console sev_debug
         (log_prefix +:+ "Cache miss for key: cache:GET:/users");
       Continue] /\
  index.res_send example_stringify recording_next (JStr "hello") w1
    = (Normal tt,
       {| redis := redis w; currentLogLevel := lvl_debug;
          res := res w1;
          trace := trace w1 ++
            [RedisSet "cache:GET:/users" (JStr "hello") (Int 120);
             Console sev_debug
               (log_prefix +:+ "Data cached for key: cache:GET:/users");
             ExpressSend (JStr "hello")] |}).
Proof.
  intros r w w1.
  destruct (miss_installs_wrappers_then_continues
              example_parse example_stringify recording_next
              r users_request "cache:GET:/users"
              {| isReady := true; GET := fun _ => None |} w
              eq_refl eq_refl eq_refl (or_introl eq_refl))
    as (Hhandle & Hres & Hsend).
  split.
  - unfold w1. rewrite Hhandle. reflexivity.
  - rewrite (Hsend "hello" w1); [reflexivity| |reflexivity|reflexivity].
    unfold w1. rewrite Hhandle. reflexivity.
Defined.

(** C5: with a ready store, a derived key and a non-empty reply to the
    lookup, the handler sets [X-Cache: HIT] and then looks at the first
    character of the reply: on ['{'] or ['['] it applies [JSON.parse] and
    calls [res.json] with the parsed value (the parse error is thrown when
    the text does not parse), otherwise it calls [res.send] with the reply.
    The run does not depend on [next]: the pipeline is never continued.  On
    a response that holds the framework's own functions the calls reach
    them directly. *)
Theorem hit_replays_without_continuing
    (JSON_parse : string -> option JSValue)
    (JSON_stringify : JSValue -> JSValue) (next : M unit)
    (r : Route) (req : Request) (key : string) (c : RedisClient)
    (data : string) (w : World) :
  redis w = Some c ->
  isReady c = true ->
  generateCacheKey r req w = (Normal (Some key), w) ->
  GET c key = Some data ->
  data <> "" ->
  let w1 := record (SetHeader "X-Cache" "HIT")
              (logged sev_debug ("Cache hit for key: " +:+ key)
                 (record (RedisGet key) w)) in
  index.handle JSON_parse JSON_stringify next r req w
    = (if startsWith data "{" || startsWith data "[" then
         match JSON_parse data with
         | Some value => floating (index.res_json JSON_stringify next value) w1
         | None => (Throws (SyntaxError "JSON.parse: not valid JSON"), w1)
         end
       else floating (index.res_send JSON_stringify next (JStr data)) w1) /\
  (forall next' : M unit,
     index.handle JSON_parse JSON_stringify next' r req w
       = index.handle JSON_parse JSON_stringify next r req w) /\
  (send (res w) = express_send ->
   json (res w) = express_json ->
   index.handle JSON_parse JSON_stringify next r req w
     = (if startsWith data "{" || startsWith data "[" then
          match JSON_parse data with
          | Some value => (Normal tt, record (ExpressJson value) w1)
          | None => (Throws (SyntaxError "JSON.parse: not valid JSON"), w1)
          end
        else (Normal tt, record (ExpressSend (JStr data)) w1))).
Proof.
  intros Hc Hr K Hget Hne w1.
  assert (Hready : redis_unavailable w1 = false).
  { unfold w1. rewrite redis_unavailable_record, redis_unavailable_logged,
      redis_unavailable_record. exact (client_ready _ _ Hc Hr). }
  assert (Hres : res w1 = res w).
  { unfold w1. cbn [record res].
    destruct (logged_frame sev_debug ("Cache hit for key: " +:+ key)
                (record (RedisGet key) w)) as (_ & _ & ->). reflexivity. }
  assert (L : forall nx,
            index.handle JSON_parse JSON_stringify nx r req w
              = (if startsWith data "{" || startsWith data "[" then
                   match JSON_parse data with
                   | Some value =>
                       floating (index.res_json JSON_stringify nx value) w1
                   | None =>
                       (Throws (SyntaxError "JSON.parse: not valid JSON"), w1)
                   end
                 else floating (index.res_send JSON_stringify nx (JStr data))
                        w1)).
  { intros nx.
    rewrite (handle_lookup JSON_parse JSON_stringify nx r req w c key Hc Hr K).
    cbn zeta. rewrite Hget. destruct data as [|a s]; [congruence|].
    reflexivity. }
  split; [apply L|]. split.
  - intros next'. rewrite (L next), (L next'). unfold floating.
    destruct (startsWith data "{" || startsWith data "[").
    + destruct (JSON_parse data) as [value|]; [|reflexivity].
      destruct (res_json_ready_frame JSON_stringify next' next value w1 Hready)
        as [-> _]. reflexivity.
    + destruct (res_send_ready_frame JSON_stringify next' next (JStr data) w1
                  Hready) as [-> _]. reflexivity.
  - intros Hs Hj. rewrite (L next).
    unfold floating, index.res_json, index.res_send.
    rewrite Hres, Hs, Hj.
    destruct (startsWith data "{" || startsWith data "[");
      [destruct (JSON_parse data)|]; reflexivity.
Qed.

(** The second test of index.test.ts (the reply is ['cached-body']) and the
    specification's JSON scenario (the reply is the text of [{a: 1}]). *)
Lemma hit_example :
  let r := route_of "GET" "/users" (spec_of "always" (Some (Int 60))) in
  let hit := Console sev_debug
               (log_prefix +:+ "Cache hit for key: cache:GET:/users") in
  trace (snd (index.handle example_parse example_stringify recording_next
                r users_request (test_world (fun _ => Some "cached-body"))))
    = [RedisGet "cache:GET:/users"; hit; SetHeader "X-Cache" "HIT";
       ExpressSend (JStr "cached-body")] /\
  trace (snd (index.handle example_parse example_stringify recording_next
                r users_request (test_world (fun _ => Some text_a1))))
    = [RedisGet "cache:GET:/users"; hit; SetHeader "X-Cache" "HIT";
       ExpressJson (JObj [("a", JNum (Int 1))])].
Proof.
  intros r hit. split.
  - destruct (hit_replays_without_continuing
                example_parse example_stringify recording_next
                r users_request "cache:GET:/users"
                {| isReady := true; GET := fun _ => Some "cached-body" |}
                "cached-body" (test_world (fun _ => Some "cached-body"))
                eq_refl eq_refl eq_refl eq_refl ltac:(discriminate))
      as (_ & _ & H).
    rewrite (H eq_refl eq_refl). reflexivity.
  - destruct (hit_replays_without_continuing
                example_parse example_stringify recording_next
                r users_request "cache:GET:/users"
                {| isReady := true; GET := fun _ => Some text_a1 |}
                text_a1 (test_world (fun _ => Some text_a1))
                eq_refl eq_refl eq_refl eq_refl ltac:(discriminate))
      as (_ & _ & H).
    rewrite (H eq_refl eq_refl). reflexivity.
Defined.

(** C1, on the code: two of the three failure paths of the handler end in a
    thrown error (the promise of the [async] handler is rejected) with
    nothing written to the response and [next] not called: a
    per-auth-token route on a request without a cookie mapping, and a hit
    whose text starts with ['{'] or ['['] and does not parse.  The third
    path, no auth token in a cookie mapping that is present, logs two
    warnings and continues the pipeline. *)
Theorem handler_failure_paths
    (JSON_parse : string -> option JSValue)
    (JSON_stringify : JSValue -> JSValue) (next : M unit)
    (r : Route) (req : Request) (c : RedisClient) (w : World) :
  redis w = Some c ->
  isReady c = true ->
  (forall spec,
     cache r = Some spec -> type spec = "per-auth-token" ->
     cookies req = None ->
     index.handle JSON_parse JSON_stringify next r req w
       = (Throws (TypeError
            "Cannot read properties of undefined (reading 'authToken')"), w)) /\
  (forall key data,
     generateCacheKey r req w = (Normal (Some key), w) ->
     GET c key = Some data ->
     startsWith data "{" || startsWith data "[" = true ->
     JSON_parse data = None ->
     index.handle JSON_parse JSON_stringify next r req w
       = (Throws (SyntaxError "JSON.parse: not valid JSON"),
          record (SetHeader "X-Cache" "HIT")
            (logged sev_debug ("Cache hit for key: " +:+ key)
               (record (RedisGet key) w)))) /\
  (forall spec cs,
     cache r = Some spec -> type spec = "per-auth-token" ->
     cookies req = Some cs ->
     truthy (cookie_pass cs) = false ->
     truthy (header_pass (headers req)) = false ->
     index.handle JSON_parse JSON_stringify next r req w
       = next (logged sev_warn index.msg_key_failed
                 (logged sev_warn msg_no_auth_cookie w))).
Proof.
  intros Hc Hr. pose proof (client_ready _ _ Hc Hr) as Hready.
  split; [|split].
  - intros spec Hs Ht Hck. apply handle_key_throws; [exact Hready|].
    unfold generateCacheKey. rewrite Hs, Ht. cbn.
    unfold bind, lift, getAuthCookie. rewrite Hck. reflexivity.
  - intros key data K Hget Hstart Hparse.
    rewrite (handle_lookup JSON_parse JSON_stringify next r req w c key Hc Hr K).
    cbn zeta. rewrite Hget.
    destruct data as [|a s]; [discriminate Hstart|].
    rewrite Hstart, Hparse. reflexivity.
  - intros spec cs Hs Ht Hck Hcookie Hheader.
    apply handle_key_failed; [exact Hready|].
    unfold generateCacheKey. rewrite Hs, Ht. cbn.
    unfold bind, lift, getAuthCookie. rewrite Hck, Hcookie. cbn.
    rewrite Hheader. cbn. rewrite log_normal. reflexivity.
Qed.

(** The route [/profile] of the README on a request whose [cookies] is
    [undefined] although it carries an [Authorization] header; and a hit on
    the text ["{"]. *)
Lemma handler_throws_example :
  let profile := route_of "GET" "/profile" (spec_of "per-auth-token" None) in
  let users := route_of "GET" "/users" (spec_of "always" None) in
  let req := {| url := "/profile"; cookies := None;
                headers := {[ "authorization" := JStr "Bearer t" ]} |} in
  let w := test_world (fun _ => Some "{") in
  index.handle example_parse example_stringify recording_next profile req w
    = (Throws (TypeError
         "Cannot read properties of undefined (reading 'authToken')"), w) /\
  index.handle example_parse example_stringify recording_next
    users users_request w
    = (Throws (SyntaxError "JSON.parse: not valid JSON"),
       {| redis := redis w; currentLogLevel := lvl_debug;
          res := fresh_response;
          trace := [RedisGet "cache:GET:/users";
                    Console sev_debug
                      (log_prefix +:+ "Cache hit for key: cache:GET:/users");
                    SetHeader "X-Cache" "HIT"] |}).
Proof.
  intros profile users req w. split.
  - destruct (handler_failure_paths
                example_parse example_stringify recording_next
                profile req {| isReady := true; GET := fun _ => Some "{" |} w
                eq_refl eq_refl) as (H & _ & _).
    exact (H (spec_of "per-auth-token" None) eq_refl eq_refl eq_refl).
  - destruct (handler_failure_paths
                example_parse example_stringify recording_next
                users users_request
                {| isReady := true; GET := fun _ => Some "{" |} w
                eq_refl eq_refl) as (_ & H & _).
    rewrite (H "cache:GET:/users" "{" eq_refl eq_refl eq_refl eq_refl).
    reflexivity.
Defined.


(** ** Further properties of the code *)

(** *** The logger and the log level *)

(** After [setLogLevel(level)], a call of [log] prints one line, on the
    console method named by the severity and with the prefix, exactly when
    the level is not silent and the severity is not debug below the debug
    level; otherwise it changes nothing. *)
Theorem log_level_table
    (level : LogLevel) (message : string) (sev : Severity) (w : World) :
  (level <> lvl_silent ->
   (sev = sev_debug -> level = lvl_debug) ->
   (setLogLevel level;; log message sev) w
     = (Normal tt,
        record (Console sev (log_prefix +:+ message)) (set_level level w))) /\
  (level = lvl_silent \/ (sev = sev_debug /\ level <> lvl_debug) ->
   (setLogLevel level;; log message sev) w = (Normal tt, set_level level w)).
Proof.
  split.
  - intros Hs Hd. destruct level, sev; try reflexivity;
      solve [congruence | specialize (Hd eq_refl); discriminate].
  - intros [-> | [-> Hl]]; [reflexivity|].
    destruct level; try reflexivity; congruence.
Qed.

Lemma log_level_example :
  let w := test_world (fun _ => None) in
  (setLogLevel lvl_normal;; log "Connected to Redis" sev_log) w
    = (Normal tt,
       record (Console sev_log (log_prefix +:+ "Connected to Redis"))
         (set_level lvl_normal w)) /\
  (setLogLevel lvl_normal;; log "Cache miss for key: k" sev_debug) w
    = (Normal tt, set_level lvl_normal w) /\
  (setLogLevel lvl_silent;; log "Redis client error" sev_error) w
    = (Normal tt, set_level lvl_silent w).
Proof.
  intros w.
  destruct (log_level_table lvl_normal "Connected to Redis" sev_log w)
    as [A _].
  destruct (log_level_table lvl_normal "Cache miss for key: k" sev_debug w)
    as [_ B].
  destruct (log_level_table lvl_silent "Redis client error" sev_error w)
    as [_ C].
  split; [|split].
  - apply A; discriminate.
  - apply B. right. split; [reflexivity|discriminate].
  - apply C. left. reflexivity.
Defined.

(** *** The outcomes of key derivation *)

(** The string conversion returns or throws; it always ends. *)
Lemma ToString_returns_or_throws (v : JSValue) :
  (exists text, ToString v = Normal text) \/ (exists e, ToString v = Throws e).
Proof.
  revert v. fix IH 1. intros v.
  destruct v as [| |[]|n|s|items|fields]; cbn; eauto.
  - revert items. fix IHl 1. intros items.
    destruct items as [|x tl]; [eauto|].
    assert (Hx : (exists text,
                    match x with
                    | JUndefined | JNull => Normal ""
                    | _ => ToString x
                    end = Normal text) \/
                 (exists e,
                    match x with
                    | JUndefined | JNull => Normal ""
                    | _ => ToString x
                    end = Throws e)).
    { pose proof (IH x) as Hx. destruct x; eauto. }
    pose proof (IHl tl) as Htl.
    destruct Hx as [[t ->] | [e ->]]; [|eauto].
    destruct tl as [|y tl']; [eauto|].
    destruct Htl as [[t' ->] | [e ->]]; eauto.
  - destruct (has_own "toString" fields); eauto.
Qed.

Lemma generateCacheKey_cases (r : Route) (req : Request) :
  (exists suffix, forall w,
     generateCacheKey r req w
       = (Normal (Some ("cache:" +:+ method r +:+ ":" +:+ suffix)), w)) \/
  (forall w, generateCacheKey r req w = (Normal None, w)) \/
  (exists sev message,
     (sev = sev_warn \/ sev = sev_error) /\
     forall w, generateCacheKey r req w
                 = (Normal None, logged sev message w)) \/
  (exists e, forall w, generateCacheKey r req w = (Throws e, w)).
Proof.
  unfold generateCacheKey.
  destruct (cache r) as [c|]; [|right; left; reflexivity].
  destruct (String.eqb (type c) "always"); [left; eauto|].
  destruct (String.eqb (type c) "per-auth-token").
  { unfold bind, lift, getAuthCookie.
    destruct (cookies req) as [cs|]; [|right; right; right; eauto].
    cbn zeta. destruct (truthy _); cbn.
    - destruct (ToString_returns_or_throws
                  (if negb (truthy (cookie_pass cs))
                   then header_pass (headers req) else cookie_pass cs))
        as [[text ->] | [e ->]].
      + left; eauto.
      + right; right; right; eauto.
    - right; right; left. exists sev_warn, msg_no_auth_cookie.
      split; [auto|]. intros w. rewrite log_normal. reflexivity. }
  destruct (String.eqb (type c) "per-request-url"); [left; eauto|].
  destruct (String.eqb (type c) "per-custom-cookie");
    [|right; left; reflexivity].
  assert (E : exists sev message,
            (sev = sev_warn \/ sev = sev_error) /\
            forall w, (log msg_cookie_undefined sev_error;; ret None) w
                        = (Normal (@None string), logged sev message w)).
  { exists sev_error, msg_cookie_undefined. split; [auto|].
    intros w. unfold bind. rewrite log_normal. reflexivity. }
  destruct (customCookie c) as [name|]; [|right; right; left; exact E].
  destruct (String.eqb name ""); cbn [negb];
    [right; right; left; exact E|].
  cbn zeta. destruct (get_member _ name) as [v|text]; [|left; eauto].
  destruct (truthy _); cbn [negb].
  - unfold bind, lift.
    destruct (ToString_returns_or_throws (js_or v (JStr "")))
      as [[text ->] | [e ->]].
    + left; eauto.
    + right; right; right; eauto.
  - right; right; left. exists sev_warn, (msg_cookie_not_found name).
    split; [auto|]. intros w. unfold bind. rewrite log_normal. reflexivity.
Qed.

(** Key derivation has four outcomes, and which one it is depends on the
    route and the request only, not on the world: a key of the form
    [cache:<method>:<suffix>] with the world unchanged; [false] with the
    world unchanged; [false] after one call of [log] at warning or error
    severity; or a thrown error with the world unchanged.  So its result is
    the same in every world, and it never touches the store client, the log
    level or the response. *)
Theorem generateCacheKey_outcomes (r : Route) (req : Request) :
  ((exists suffix, forall w,
      generateCacheKey r req w
        = (Normal (Some ("cache:" +:+ method r +:+ ":" +:+ suffix)), w)) \/
   (forall w, generateCacheKey r req w = (Normal None, w)) \/
   (exists sev message,
      (sev = sev_warn \/ sev = sev_error) /\
      forall w, generateCacheKey r req w
                  = (Normal None, logged sev message w)) \/
   (exists e, forall w, generateCacheKey r req w = (Throws e, w))) /\
  (forall w w',
     fst (generateCacheKey r req w) = fst (generateCacheKey r req w')) /\
  (forall w,
     redis (snd (generateCacheKey r req w)) = redis w /\
     currentLogLevel (snd (generateCacheKey r req w)) = currentLogLevel w /\
     res (snd (generateCacheKey r req w)) = res w).
Proof.
  pose proof (generateCacheKey_cases r req) as C.
  split; [exact C|].
  destruct C as [[s H] | [H | [(sev & m & _ & H) | [e H]]]].
  - split; intros; rewrite !H; cbn; auto.
  - split; intros; rewrite !H; cbn; auto.
  - split; intros; rewrite !H; cbn [fst snd]; [reflexivity|].
    apply logged_frame.
  - split; intros; rewrite !H; cbn; auto.
Qed.

(** *** Auth-token discovery, continued *)

(** [getAuthCookie] throws exactly when the request has no cookie mapping,
    and what it returns is either a truthy value or [null]: never
    [undefined], never the empty string. *)
Theorem getAuthCookie_truthy_or_null (req : Request) :
  (cookies req = None <->
   exists e, getAuthCookie req = Throws e) /\
  (forall v, getAuthCookie req = Normal v -> truthy v = true \/ v = JNull).
Proof.
  unfold getAuthCookie. split.
  - destruct (cookies req) as [cs|]; split; eauto; try discriminate.
    intros [e H]. discriminate H.
  - destruct (cookies req) as [cs|]; [|discriminate].
    intros v [= <-]. cbn zeta.
    destruct (truthy (cookie_pass cs)) eqn:Ec; cbn [negb]; [auto|].
    unfold header_pass, js_or.
    destruct (truthy (find_defined _)) eqn:Eh; auto.
Qed.

Lemma header_pass_lowered (h : gmap string JSValue) :
  header_pass h
    = js_or (default JUndefined (first_defined_cookie lowered_header_names h))
        JNull.
Proof.
  unfold header_pass, lowered_header_names.
  rewrite <- find_defined_first_cookie, map_map. reflexivity.
Qed.

(** The header pass looks the eight names up in lower case and in list
    order, and stops at the first that is defined: it returns that value
    when it is truthy and [null] otherwise, without looking at the names
    after it.  It is what [getAuthCookie] returns when the cookie mapping
    defines none of the listed cookies. *)
Theorem header_pass_first_defined (h : gmap string JSValue) :
  (forall v, first_defined_cookie lowered_header_names h = Some v ->
     header_pass h = (if truthy v then v else JNull)) /\
  (first_defined_cookie lowered_header_names h = None ->
     header_pass h = JNull) /\
  (forall u cs,
     first_defined_cookie commonAuthCookieNames cs = None ->
     getAuthCookie {| url := u; cookies := Some cs; headers := h |}
       = Normal (header_pass h)).
Proof.
  split; [|split].
  - intros v H. rewrite header_pass_lowered, H. reflexivity.
  - intros H. rewrite header_pass_lowered, H. reflexivity.
  - intros u cs H. unfold getAuthCookie. cbn [cookies headers].
    unfold cookie_pass, cookie_scan.
    rewrite find_defined_first_cookie, H. reflexivity.
Qed.

(** A bearer token in [authorization] is found; a header map with an empty
    [authorization] before a good [x-auth-token] yields [null]; and a key
    spelt [Authorization] is not looked at. *)
Lemma header_pass_example :
  let bearer : gmap string JSValue :=
    {[ "authorization" := JStr "Bearer t" ]} in
  let empty_first : gmap string JSValue :=
    {[ "authorization" := JStr ""; "x-auth-token" := JStr "abc" ]} in
  let capital : gmap string JSValue :=
    {[ "Authorization" := JStr "Bearer t" ]} in
  header_pass bearer = JStr "Bearer t" /\
  header_pass empty_first = JNull /\
  header_pass capital = JNull /\
  getAuthCookie {| url := "/profile"; cookies := Some ∅; headers := bearer |}
    = Normal (JStr "Bearer t").
Proof.
  intros bearer empty_first capital.
  destruct (header_pass_first_defined bearer) as (A & _ & G).
  destruct (header_pass_first_defined empty_first) as (B & _ & _).
  destruct (header_pass_first_defined capital) as (_ & C & _).
  split; [exact (A (JStr "Bearer t") eq_refl)|].
  split; [exact (B (JStr "") eq_refl)|].
  split; [exact (C eq_refl)|].
  exact (G "/profile" ∅ eq_refl).
Defined.

(** For a per-auth-token route and a request on which discovery returns:
    a token that is a non-empty string gives the key
    [cache:<method>:<routePath>:<token>] with nothing logged; a falsy token
    makes derivation report [msg_no_auth_cookie] at warning severity and
    return [false]; and a token that is an object with an own [toString]
    property (a JSON cookie can be one) makes the template literal throw a
    [TypeError], with nothing logged. *)
Theorem auth_token_derivation
    (r : Route) (c : CacheSpec) (req : Request) (token : JSValue) (w : World) :
  cache r = Some c ->
  type c = "per-auth-token" ->
  getAuthCookie req = Normal token ->
  (forall t, token = JStr t -> t <> "" ->
   generateCacheKey r req w
     = (Normal (Some ("cache:" +:+ method r +:+ ":" +:+ route r +:+ ":"
                      +:+ t)), w)) /\
  (truthy token = false ->
   generateCacheKey r req w
     = (Normal None, logged sev_warn msg_no_auth_cookie w)) /\
  (forall fields, token = JObj fields -> has_own "toString" fields = true ->
   generateCacheKey r req w
     = (Throws (TypeError "Cannot convert object to primitive value"), w)).
Proof.
  intros Hc Ht Ha.
  split; [|split].
  - intros t -> Hn. apply String.eqb_neq in Hn.
    unfold generateCacheKey. rewrite Hc, Ht. cbn.
    unfold bind, lift. rewrite Ha. cbn. rewrite Hn. reflexivity.
  - intros Hv. unfold generateCacheKey. rewrite Hc, Ht. cbn.
    unfold bind, lift. rewrite Ha, Hv. cbn. rewrite log_normal. reflexivity.
  - intros fields -> Hown. unfold generateCacheKey. rewrite Hc, Ht. cbn.
    unfold bind, lift. rewrite Ha. cbn. rewrite Hown. reflexivity.
Qed.

(** The README's [/profile] route: the cookie [jwt=abc] wins over an
    [Authorization] header; without cookie and header the warning is
    printed; a JSON cookie [jwt] holding [{toString: 1}] makes derivation
    throw. *)
Lemma auth_token_example :
  let r := route_of "GET" "/profile" (spec_of "per-auth-token" None) in
  let w := test_world (fun _ => None) in
  let with_both := {| url := "/profile";
                      cookies := Some {[ "jwt" := JStr "abc" ]};
                      headers := {[ "authorization" := JStr "Bearer t" ]} |} in
  let odd := JObj [("toString", JNum (Int 1))] in
  let with_object := {| url := "/profile";
                        cookies := Some {[ "jwt" := odd ]};
                        headers := ∅ |} in
  generateCacheKey r with_both w
    = (Normal (Some "cache:GET:/profile:abc"), w) /\
  generateCacheKey r users_request w
    = (Normal None,
       record (Console sev_warn (log_prefix +:+ msg_no_auth_cookie)) w) /\
  generateCacheKey r with_object w
    = (Throws (TypeError "Cannot convert object to primitive value"), w).
Proof.
  intros r w with_both odd with_object. split; [|split].
  - destruct (auth_token_derivation r (spec_of "per-auth-token" None)
                with_both (JStr "abc") w eq_refl eq_refl eq_refl)
      as (K & _ & _).
    exact (K "abc" eq_refl ltac:(discriminate)).
  - destruct (auth_token_derivation r (spec_of "per-auth-token" None)
                users_request JNull w eq_refl eq_refl eq_refl)
      as (_ & K & _).
    rewrite (K eq_refl). reflexivity.
  - destruct (auth_token_derivation r (spec_of "per-auth-token" None)
                with_object odd w eq_refl eq_refl eq_refl)
      as (_ & _ & K).
    exact (K [("toString", JNum (Int 1))] eq_refl eq_refl).
Defined.

Lemma getAuthCookie_example :
  (exists e, getAuthCookie {| url := "/"; cookies := None; headers := ∅ |}
               = Throws e) /\
  (truthy JNull = true \/ JNull = JNull).
Proof.
  split.
  - destruct (getAuthCookie_truthy_or_null
                {| url := "/"; cookies := None; headers := ∅ |}) as [[H _] _].
    exact (H eq_refl).
  - destruct (getAuthCookie_truthy_or_null users_request) as [_ H].
    exact (H JNull eq_refl).
Defined.

(** *** Which requests share a key *)

Lemma append_cancel_l (p a b : string) : p +:+ a = p +:+ b -> a = b.
Proof.
  induction p as [|ch p IH]; cbn; [auto|].
  intros [= H]. exact (IH H).
Qed.

(** On one per-request-url route two requests derive the same key exactly
    when their URLs (path and query string) are the same string. *)
Theorem request_url_keys_separate
    (r : Route) (c : CacheSpec) (req1 req2 : Request) (w1 w2 : World) :
  cache r = Some c ->
  type c = "per-request-url" ->
  fst (generateCacheKey r req1 w1) = fst (generateCacheKey r req2 w2)
  <-> url req1 = url req2.
Proof.
  intros Hc Ht.
  assert (K : forall req w,
            generateCacheKey r req w
              = (Normal (Some ("cache:" +:+ method r +:+ ":" +:+ url req)), w)).
  { intros req w. unfold generateCacheKey. rewrite Hc, Ht. reflexivity. }
  rewrite !K. cbn [fst]. split.
  - intros [= H]. apply (append_cancel_l (method r)) in H.
    apply (append_cancel_l ":") in H. exact H.
  - intros ->. reflexivity.
Qed.

Lemma request_url_keys_example :
  let r := route_of "GET" "/search" (spec_of "per-request-url" None) in
  let w := test_world (fun _ => None) in
  let q1 := {| url := "/search?q=a"; cookies := None; headers := ∅ |} in
  let q2 := {| url := "/search?q=b"; cookies := None; headers := ∅ |} in
  fst (generateCacheKey r q1 w) <> fst (generateCacheKey r q2 w).
Proof.
  intros r w q1 q2 H.
  apply (request_url_keys_separate r (spec_of "per-request-url" None)
           q1 q2 w w eq_refl eq_refl) in H.
  discriminate H.
Defined.

(** On one per-auth-token route, two requests whose discovered tokens are
    non-empty strings derive the same key exactly when the tokens are
    equal: callers with different tokens never share an entry of that
    route. *)
Theorem auth_token_keys_separate
    (r : Route) (c : CacheSpec) (req1 req2 : Request) (t1 t2 : string)
    (w1 w2 : World) :
  cache r = Some c ->
  type c = "per-auth-token" ->
  getAuthCookie req1 = Normal (JStr t1) ->
  getAuthCookie req2 = Normal (JStr t2) ->
  t1 <> "" ->
  t2 <> "" ->
  fst (generateCacheKey r req1 w1) = fst (generateCacheKey r req2 w2)
  <-> t1 = t2.
Proof.
  intros Hc Ht H1 H2 N1 N2.
  assert (K : forall req t w, getAuthCookie req = Normal (JStr t) -> t <> "" ->
            generateCacheKey r req w
              = (Normal (Some ("cache:" +:+ method r +:+ ":" +:+ route r
                               +:+ ":" +:+ t)), w)).
  { intros req t w Ha Hn. apply String.eqb_neq in Hn.
    unfold generateCacheKey. rewrite Hc, Ht. cbn.
    unfold bind, lift. rewrite Ha. cbn. rewrite Hn. reflexivity. }
  rewrite (K req1 t1 w1 H1 N1), (K req2 t2 w2 H2 N2). cbn [fst]. split.
  - intros [= H]. apply (append_cancel_l (method r)) in H.
    apply (append_cancel_l ":") in H. apply (append_cancel_l (route r)) in H.
    apply (append_cancel_l ":") in H. exact H.
  - intros ->. reflexivity.
Qed.

Lemma auth_token_keys_example :
  let r := route_of "GET" "/profile" (spec_of "per-auth-token" None) in
  let w := test_world (fun _ => None) in
  let alice := {| url := "/profile";
                  cookies := Some {[ "jwt" := JStr "alice" ]};
                  headers := ∅ |} in
  let bob := {| url := "/profile"; cookies := Some ∅;
                headers := {[ "authorization" := JStr "bob" ]} |} in
  fst (generateCacheKey r alice w) <> fst (generateCacheKey r bob w).
Proof.
  intros r w alice bob H.
  apply (auth_token_keys_separate r (spec_of "per-auth-token" None)
           alice bob "alice" "bob" w w eq_refl eq_refl eq_refl eq_refl
           ltac:(discriminate) ltac:(discriminate)) in H.
  discriminate H.
Defined.

(** The key is built by string interpolation, so a per-custom-cookie route
    does not tell apart cookie values that are objects (a cookie parser
    yields them for JSON cookies): every object without an own [toString]
    property derives [cache:<method>:<routePath>:[object Object]], and an
    object with one makes derivation throw a [TypeError]. *)
Theorem object_cookie_values_share_a_key
    (r : Route) (c : CacheSpec) (name : string) (req : Request)
    (fields : list (string * JSValue)) (cs : gmap string JSValue) (w : World) :
  cache r = Some c ->
  type c = "per-custom-cookie" ->
  customCookie c = Some name ->
  name <> "" ->
  cookies req = Some cs ->
  cs !! name = Some (JObj fields) ->
  (has_own "toString" fields = false ->
   generateCacheKey r req w
     = (Normal (Some ("cache:" +:+ method r +:+ ":" +:+ route r
                      +:+ ":[object Object]")), w)) /\
  (has_own "toString" fields = true ->
   generateCacheKey r req w
     = (Throws (TypeError "Cannot convert object to primitive value"), w)).
Proof.
  intros Hc Ht Hn Hne Hck Hv. apply String.eqb_neq in Hne.
  split; intros Hown; unfold generateCacheKey; rewrite Hc, Ht; cbn;
    rewrite Hn, Hne, Hck; cbn; unfold get_member; rewrite Hv; cbn;
    rewrite Hown; reflexivity.
Qed.

Lemma object_cookie_values_example :
  let c := {| expire := None; type := "per-custom-cookie";
              customCookie := Some "cart" |} in
  let r := route_of "GET" "/cart" c in
  let w := test_world (fun _ => None) in
  let cart items := {| url := "/cart";
                       cookies := Some {[ "cart" := JObj items ]};
                       headers := ∅ |} in
  generateCacheKey r (cart [("id", JNum (Int 1))]) w
    = generateCacheKey r (cart [("id", JNum (Int 2))]) w /\
  generateCacheKey r (cart [("toString", JNum (Int 1))]) w
    = (Throws (TypeError "Cannot convert object to primitive value"), w).
Proof.
  intros c r w cart.
  destruct (object_cookie_values_share_a_key r c "cart"
              (cart [("id", JNum (Int 1))]) [("id", JNum (Int 1))]
              {[ "cart" := JObj [("id", JNum (Int 1))] ]} w
              eq_refl eq_refl eq_refl ltac:(discriminate) eq_refl eq_refl)
    as [K1 _].
  destruct (object_cookie_values_share_a_key r c "cart"
              (cart [("id", JNum (Int 2))]) [("id", JNum (Int 2))]
              {[ "cart" := JObj [("id", JNum (Int 2))] ]} w
              eq_refl eq_refl eq_refl ltac:(discriminate) eq_refl eq_refl)
    as [K2 _].
  destruct (object_cookie_values_share_a_key r c "cart"
              (cart [("toString", JNum (Int 1))])
              [("toString", JNum (Int 1))]
              {[ "cart" := JObj [("toString", JNum (Int 1))] ]} w
              eq_refl eq_refl eq_refl ltac:(discriminate) eq_refl eq_refl)
    as [_ K3].
  split.
  - rewrite (K1 eq_refl), (K2 eq_refl). reflexivity.
  - exact (K3 eq_refl).
Defined.

(** Keys of different variants are not kept apart: the key of a
    per-auth-token route [p] for the token [t] is the key of an [always]
    route whose path is [p:t] (same method), for every request to the
    latter. *)
Theorem auth_key_is_an_always_key
    (r r' : Route) (c c' : CacheSpec) (req req' : Request) (t : string)
    (w w' : World) :
  cache r = Some c ->
  type c = "per-auth-token" ->
  getAuthCookie req = Normal (JStr t) ->
  t <> "" ->
  cache r' = Some c' ->
  type c' = "always" ->
  method r' = method r ->
  route r' = route r +:+ ":" +:+ t ->
  fst (generateCacheKey r' req' w') = fst (generateCacheKey r req w).
Proof.
  intros Hc Ht Ha Hn Hc' Ht' Hm Hp. apply String.eqb_neq in Hn.
  unfold generateCacheKey. rewrite Hc, Ht, Hc', Ht'. cbn.
  unfold bind, lift. rewrite Ha. cbn. rewrite Hn, Hm, Hp. reflexivity.
Qed.

Lemma auth_key_is_an_always_key_example :
  let private := route_of "GET" "/report" (spec_of "per-auth-token" None) in
  let public := route_of "GET" "/report:abc" (spec_of "always" None) in
  let w := test_world (fun _ => None) in
  let owner := {| url := "/report";
                  cookies := Some {[ "jwt" := JStr "abc" ]};
                  headers := ∅ |} in
  fst (generateCacheKey public users_request w)
    = fst (generateCacheKey private owner w).
Proof.
  intros private public w owner.
  exact (auth_key_is_an_always_key private public
           (spec_of "per-auth-token" None) (spec_of "always" None)
           owner users_request "abc" w w
           eq_refl eq_refl eq_refl ltac:(discriminate)
           eq_refl eq_refl eq_refl eq_refl).
Defined.

(** *** The factory *)

(** When the store is missing or not ready as [cache(route)] is called for
    a route with a cache specification, the factory logs one error and
    returns a handler that only calls [next], in every later world: also
    when the store has become ready by then. *)
Theorem unready_at_construction_is_permanent
    (JSON_parse : string -> option JSValue)
    (JSON_stringify : JSValue -> JSValue)
    (r : Route) (c : CacheSpec) (w : World) :
  cache r = Some c ->
  redis_unavailable w = true ->
  exists h,
    index.cache r w
      = (Normal h, logged sev_error index.msg_not_initialized w) /\
    forall (next : M unit) (req : Request) (w0 : World),
      index.invoke JSON_parse JSON_stringify next h req w0 = next w0.
Proof.
  intros Hc Hu. exists unready_pass_through. split; [|reflexivity].
  unfold index.cache, index.cacheMiddleware, bind, read.
  rewrite Hc, Hu, log_normal. reflexivity.
Qed.

(** [cache] called before [setupCache], then a request in the test's world,
    whose store is ready and would reply with a cached body: the error is
    printed once, at construction, and the request is only passed on. *)
Lemma unready_at_construction_example :
  let r := route_of "GET" "/users" (spec_of "always" None) in
  let before := {| redis := None; currentLogLevel := lvl_normal;
                   res := fresh_response; trace := [] |} in
  let later := test_world (fun _ => Some "cached-body") in
  exists h,
    index.cache r before
      = (Normal h,
         record (Console sev_error
                   (log_prefix +:+ index.msg_not_initialized)) before) /\
    index.invoke example_parse example_stringify recording_next h
      users_request later
      = (Normal tt, record Continue later).
Proof.
  intros r before later.
  destruct (unready_at_construction_is_permanent
              example_parse example_stringify r (spec_of "always" None)
              before eq_refl eq_refl) as (h & Hh & Hcall).
  exists h. split; [exact Hh|]. rewrite Hcall. reflexivity.
Defined.

(** With a ready store the factory logs nothing and returns the caching
    handler of its route, which runs the lookup when the store is ready on a
    request; that handler checks the store again on every request, and when
    the store is then missing or not ready it calls [next] at once: no key
    is derived, nothing is logged, the store is not called. *)
Theorem handler_rechecks_readiness
    (JSON_parse : string -> option JSValue)
    (JSON_stringify : JSValue -> JSValue)
    (r : Route) (c : CacheSpec) (w : World) :
  cache r = Some c ->
  redis_unavailable w = false ->
  index.cache r w = (Normal (caching r), w) /\
  (forall (next : M unit) (req : Request) (w0 : World),
     redis_unavailable w0 = true ->
     index.invoke JSON_parse JSON_stringify next (caching r) req w0
       = next w0) /\
  (forall (next : M unit) (req : Request) (w0 : World),
     index.invoke JSON_parse JSON_stringify next (caching r) req w0
       = index.handle JSON_parse JSON_stringify next r req w0).
Proof.
  intros Hc Hr. split; [|split].
  - unfold index.cache, index.cacheMiddleware, bind, read.
    rewrite Hc, Hr. reflexivity.
  - intros next req w0 Hu. cbn [index.invoke].
    apply handle_unavailable, Hu.
  - reflexivity.
Qed.

(** The factory on the test's world, then a request while the client is not
    ready, and the same request once it is ready again and holds a body:
    the first is only passed on, the second is a hit. *)
Lemma handler_rechecks_readiness_example :
  let r := route_of "GET" "/users" (spec_of "always" None) in
  let w := test_world (fun _ => Some "cached-body") in
  let down := set_redis (Some {| isReady := false;
                                 GET := fun _ => Some "cached-body" |}) w in
  exists h,
    index.cache r w = (Normal h, w) /\
    index.invoke example_parse example_stringify recording_next h
      users_request down
      = (Normal tt, record Continue down) /\
    trace (snd (index.invoke example_parse example_stringify recording_next h
                  users_request w))
      = [RedisGet "cache:GET:/users";
         Console sev_debug
           (log_prefix +:+ "Cache hit for key: cache:GET:/users");
         SetHeader "X-Cache" "HIT"; ExpressSend (JStr "cached-body")].
Proof.
  intros r w down.
  destruct (handler_rechecks_readiness
              example_parse example_stringify r
              (spec_of "always" None) w eq_refl eq_refl)
    as (Hh & Hdown & Hup).
  exists (caching r). split; [exact Hh|]. split.
  - rewrite (Hdown recording_next users_request down eq_refl). reflexivity.
  - rewrite Hup. reflexivity.
Defined.

(** *** The handler and [next] *)

(** Whatever the route, the request and the world, the handler either ends
    in one call of [next], on a world that does not depend on [next] and
    has the same store client and log level, or it runs without calling
    [next] at all.  [next] is never called twice, and never followed by
    anything. *)
Theorem handle_calls_next_at_most_once
    (JSON_parse : string -> option JSValue)
    (JSON_stringify : JSValue -> JSValue)
    (r : Route) (req : Request) (w : World) :
  (exists w',
     redis w' = redis w /\
     currentLogLevel w' = currentLogLevel w /\
     forall next : M unit,
       index.handle JSON_parse JSON_stringify next r req w = next w') \/
  (exists result,
     forall next : M unit,
       index.handle JSON_parse JSON_stringify next r req w = result).
Proof.
  destruct (redis_unavailable w) eqn:Hu.
  { left. exists w. repeat split. intros next. apply handle_unavailable, Hu. }
  destruct (generateCacheKey r req w) as [[[key|]|e|] w0] eqn:K.
  - destruct (generateCacheKey_some _ _ _ _ _ K) as [-> _].
    destruct (ready_client w Hu) as (c & Hc & Hr).
    pose proof (fun next =>
      handle_lookup JSON_parse JSON_stringify next r req w c key Hc Hr K) as L.
    cbn zeta in L.
    destruct (GET c key) as [[|a data]|].
    + left. eexists. split; [|split; [|exact L]]; cbn;
        destruct (logged_frame sev_debug ("Cache miss for key: " +:+ key)
                    (record (RedisGet key) w)) as (R1 & R2 & _);
        [rewrite R1|rewrite R2]; reflexivity.
    + right.
      set (w1 := record (SetHeader "X-Cache" "HIT")
                   (logged sev_debug ("Cache hit for key: " +:+ key)
                      (record (RedisGet key) w))) in *.
      assert (Hready : redis_unavailable w1 = false).
      { unfold w1. rewrite redis_unavailable_record,
          redis_unavailable_logged, redis_unavailable_record. exact Hu. }
      exists (index.handle JSON_parse JSON_stringify recording_next r req w).
      intros next. rewrite (L next), (L recording_next). unfold floating.
      destruct (startsWith (String a data) "{"
                || startsWith (String a data) "[").
      * destruct (JSON_parse (String a data)) as [value|]; [|reflexivity].
        destruct (res_json_ready_frame JSON_stringify next recording_next
                    value w1 Hready) as [-> _]. reflexivity.
      * destruct (res_send_ready_frame JSON_stringify next recording_next
                    (JStr (String a data)) w1 Hready) as [-> _]. reflexivity.
    + left. eexists. split; [|split; [|exact L]]; cbn;
        destruct (logged_frame sev_debug ("Cache miss for key: " +:+ key)
                    (record (RedisGet key) w)) as (R1 & R2 & _);
        [rewrite R1|rewrite R2]; reflexivity.
  - left. exists (logged sev_warn index.msg_key_failed w0).
    destruct (generateCacheKey_cases r req)
      as [[s H] | [H | [(sev & m & _ & H) | [e H]]]];
      rewrite H in K; try discriminate K; injection K as <-.
    + repeat split; try apply logged_frame.
      intros next. apply handle_key_failed; [exact Hu|apply H].
    + destruct (logged_frame sev_warn index.msg_key_failed (logged sev m w))
        as (R1 & R2 & _).
      destruct (logged_frame sev m w) as (R3 & R4 & _).
      repeat split; [congruence|congruence|].
      intros next. apply handle_key_failed; [exact Hu|apply H].
  - right. exists (Throws e, w0). intros next.
    apply handle_key_throws; assumption.
  - right. exists (Loops, w0). intros next.
    unfold index.handle, bind, read. rewrite Hu, K. reflexivity.
Qed.

(** *** The closures, continued *)

(** When the structured-write closure runs and the store is missing or not
    ready, it ends in a call of [next] on the unchanged world: nothing is
    stored and the body is not handed to the [json] it replaced. *)
Theorem json_wrapper_unready_calls_next
    (JSON_stringify : JSValue -> JSValue) (next : M unit)
    (key : string) (r : Route) (orig : JsonFn) (body : JSValue) (w : World) :
  json (res w) = cached_json key r orig ->
  redis_unavailable w = true ->
  index.res_json JSON_stringify next body w = next w.
Proof.
  intros Hj Hu. unfold index.res_json. rewrite Hj.
  apply call_json_unavailable, Hu.
Qed.

Lemma json_wrapper_unready_example :
  let r := route_of "GET" "/users" (spec_of "always" None) in
  let w1 := snd (index.handle example_parse example_stringify recording_next
                   r users_request (test_world (fun _ => None))) in
  let w2 := set_redis None w1 in
  index.res_json example_stringify recording_next
    (JObj [("a", JNum (Int 1))]) w2
    = (Normal tt, record Continue w2).
Proof.
  intros r w1 w2.
  rewrite (json_wrapper_unready_calls_next example_stringify recording_next
             "cache:GET:/users" r express_json (JObj [("a", JNum (Int 1))])
             w2 eq_refl eq_refl).
  reflexivity.
Defined.

(** With the closures of one miss on a response of the framework and the
    store ready: [res.json(body)] stores the text [JSON.stringify(body)] and
    hands the body itself to the framework's [json]; [res.send(body)] stores
    a body of type object as its text and hands that text, not the body, to
    the framework's [send], and stores and sends any other body as it
    is. *)
Theorem wrappers_on_fresh_response
    (JSON_stringify : JSValue -> JSValue) (next : M unit)
    (key : string) (r : Route) (body : JSValue) (w : World) :
  redis_unavailable w = false ->
  send (res w) = cached_send key r ->
  sendResponse (res w) = Some express_send ->
  json (res w) = cached_json key r express_json ->
  index.res_json JSON_stringify next body w
    = (Normal tt,
       record (ExpressJson body)
         (stored key (JSON_stringify body) r "JSON Data cached for key: " w)) /\
  index.res_send JSON_stringify next body w
    = (let sent := if typeof_object body then JSON_stringify body
                   else body in
       (Normal tt,
        record (ExpressSend sent)
          (stored key sent r "Data cached for key: " w))).
Proof.
  intros Hr Hs Hsr Hj. split.
  - unfold index.res_json. rewrite Hj, call_json_ready by exact Hr.
    reflexivity.
  - unfold index.res_send. rewrite Hs, call_send_ready by exact Hr.
    cbn zeta. unfold index.call_sendResponse.
    set (sent := if typeof_object body then _ else _).
    destruct (stored_frame key sent r "Data cached for key: " w)
      as (_ & -> & _).
    rewrite Hsr. reflexivity.
Qed.

(** After the miss of index.test.ts: the object [{a: 1}] sent through
    [res.json] is stored as text and delivered as an object; sent through
    [res.send] it is stored and delivered as text; the number 7 sent
    through [res.send] is stored as the number. *)
Lemma wrappers_on_fresh_response_example :
  let r := route_of "GET" "/users" (spec_of "always" None) in
  let w1 := snd (index.handle example_parse example_stringify recording_next
                   r users_request (test_world (fun _ => None))) in
  let a1 := JObj [("a", JNum (Int 1))] in
  let cached := Console sev_debug
                  (log_prefix +:+ "Data cached for key: cache:GET:/users") in
  trace (snd (index.res_json example_stringify recording_next a1 w1))
    = trace w1 ++
      [RedisSet "cache:GET:/users" (JStr text_a1) (Int 60);
       Console sev_debug
         (log_prefix +:+ "JSON Data cached for key: cache:GET:/users");
       ExpressJson a1] /\
  trace (snd (index.res_send example_stringify recording_next a1 w1))
    = trace w1 ++
      [RedisSet "cache:GET:/users" (JStr text_a1) (Int 60); cached;
       ExpressSend (JStr text_a1)] /\
  trace (snd (index.res_send example_stringify recording_next
                (JNum (Int 7)) w1))
    = trace w1 ++
      [RedisSet "cache:GET:/users" (JNum (Int 7)) (Int 60); cached;
       ExpressSend (JNum (Int 7))].
Proof.
  intros r w1 a1 cached.
  destruct (wrappers_on_fresh_response example_stringify recording_next
              "cache:GET:/users" r a1 w1 eq_refl eq_refl eq_refl eq_refl)
    as [J S].
  destruct (wrappers_on_fresh_response example_stringify recording_next
              "cache:GET:/users" r (JNum (Int 7)) w1
              eq_refl eq_refl eq_refl eq_refl) as [_ N].
  rewrite J, S, N. repeat split.
Defined.

(** Two misses on one response (two caching handlers in a row, keys [k1]
    then [k2]): [res.json] stores under both keys and reaches the
    framework's [json] once; [res.send] stores under [k2] and then under
    [k1], and from there the first closure calls itself through
    [res.sendResponse], which the second miss overwrote: the framework's
    [send] is never reached. *)
Theorem stacked_wrappers
    (JSON_stringify : JSValue -> JSValue) (next : M unit)
    (k1 k2 : string) (r1 r2 : Route) (body : string) (w : World) :
  redis_unavailable w = false ->
  send (res w) = express_send ->
  json (res w) = express_json ->
  let w2 := snd (index.install k2 r2 (snd (index.install k1 r1 w))) in
  index.res_json JSON_stringify next (JStr body) w2
    = (Normal tt,
       record (ExpressJson (JStr body))
         (stored k1 (JSON_stringify (JStr body)) r1
            "JSON Data cached for key: "
            (stored k2 (JSON_stringify (JStr body)) r2
               "JSON Data cached for key: " w2))) /\
  index.res_send JSON_stringify next (JStr body) w2
    = (Loops,
       stored k1 (JStr body) r1 "Data cached for key: "
         (stored k2 (JStr body) r2 "Data cached for key: " w2)).
Proof.
  intros Hr Hs Hj w2.
  assert (Hr2 : redis_unavailable w2 = false) by exact Hr.
  assert (Hres : res w2 = {| send := cached_send k2 r2;
                             json := cached_json k2 r2
                                       (cached_json k1 r1 express_json);
                             sendResponse := Some (cached_send k1 r1) |}).
  { unfold w2, index.install. cbn. rewrite Hj. reflexivity. }
  split.
  - unfold index.res_json. rewrite Hres. cbn [json].
    rewrite call_json_ready by exact Hr2.
    rewrite call_json_ready
      by (rewrite redis_unavailable_stored; exact Hr2).
    reflexivity.
  - unfold index.res_send. rewrite Hres. cbn [send].
    rewrite call_send_ready by exact Hr2. cbn zeta. cbn [typeof_object].
    unfold index.call_sendResponse.
    destruct (stored_frame k2 (JStr body) r2 "Data cached for key: " w2)
      as (_ & -> & _).
    rewrite Hres. cbn [sendResponse].
    rewrite call_send_ready
      by (rewrite redis_unavailable_stored; exact Hr2).
    reflexivity.
Qed.

Lemma stacked_wrappers_example :
  let r := route_of "GET" "/users" (spec_of "always" None) in
  let w := test_world (fun _ => None) in
  let w2 := snd (index.install "k2" r (snd (index.install "k1" r w))) in
  fst (index.res_send example_stringify recording_next (JStr "hello") w2)
    = Loops /\
  trace (snd (index.res_send example_stringify recording_next
                (JStr "hello") w2))
    = [RedisSet "k2" (JStr "hello") (Int 60);
       Console sev_debug (log_prefix +:+ "Data cached for key: k2");
       RedisSet "k1" (JStr "hello") (Int 60);
       Console sev_debug (log_prefix +:+ "Data cached for key: k1")].
Proof.
  intros r w w2.
  destruct (stacked_wrappers example_stringify recording_next
              "k1" "k2" r r "hello" w eq_refl eq_refl eq_refl) as [_ S].
  fold w2 in S. rewrite S. split; reflexivity.
Defined.

(** *** The silent level *)

(** At the silent level neither key derivation nor the factory changes the
    world: no failure of theirs reaches the console. *)
Theorem silent_level_is_silent (r : Route) (req : Request) (w : World) :
  currentLogLevel w = lvl_silent ->
  snd (generateCacheKey r req w) = w /\
  snd (index.cache r w) = w.
Proof.
  intros Hl.
  assert (S : forall sev message, logged sev message w = w).
  { intros sev message. unfold logged, log. rewrite Hl. reflexivity. }
  split.
  - destruct (generateCacheKey_cases r req)
      as [[s H] | [H | [(sev & m & _ & H) | [e H]]]];
      rewrite H; cbn [snd]; auto.
  - unfold index.cache, index.cacheMiddleware, bind, read.
    destruct (cache r); [|reflexivity].
    destruct (redis_unavailable w); [|reflexivity].
    rewrite log_normal, S. reflexivity.
Qed.

Lemma silent_level_example :
  let r := route_of "GET" "/cart" (spec_of "per-custom-cookie" None) in
  let w := {| redis := None; currentLogLevel := lvl_silent;
              res := fresh_response; trace := [] |} in
  snd (generateCacheKey r users_request w) = w /\
  snd (index.cache r w) = w.
Proof.
  intros r w. exact (silent_level_is_silent r users_request w eq_refl).
Defined.


(** *** A hit behind an earlier miss *)

(** When a caching handler has a hit on a response that carries the
    closures of an earlier miss (another caching handler ran before it, key
    [k1]), a replayed raw body goes through the earlier closure: it is
    stored under [k1] with that route's TTL before the framework's [send]
    receives it. *)
Theorem hit_feeds_earlier_miss
    (JSON_parse : string -> option JSValue)
    (JSON_stringify : JSValue -> JSValue) (next : M unit)
    (r r1 : Route) (req : Request) (key k1 : string) (c : RedisClient)
    (data : string) (w : World) :
  redis w = Some c ->
  isReady c = true ->
  generateCacheKey r req w = (Normal (Some key), w) ->
  GET c key = Some data ->
  data <> "" ->
  startsWith data "{" || startsWith data "[" = false ->
  send (res w) = cached_send k1 r1 ->
  sendResponse (res w) = Some express_send ->
  index.handle JSON_parse JSON_stringify next r req w
    = (Normal tt,
       record (ExpressSend (JStr data))
         (stored k1 (JStr data) r1 "Data cached for key: "
            (record (SetHeader "X-Cache" "HIT")
               (logged sev_debug ("Cache hit for key: " +:+ key)
                  (record (RedisGet key) w))))).
Proof.
  intros Hc Hr K Hget Hne Hraw Hs Hsr.
  rewrite (handle_lookup JSON_parse JSON_stringify next r req w c key Hc Hr K).
  cbn zeta. rewrite Hget. destruct data as [|a s]; [congruence|].
  rewrite Hraw.
  set (w1 := record (SetHeader "X-Cache" "HIT") _).
  assert (Hready : redis_unavailable w1 = false).
  { unfold w1. rewrite redis_unavailable_record, redis_unavailable_logged,
      redis_unavailable_record. exact (client_ready _ _ Hc Hr). }
  assert (Hres : res w1 = res w).
  { unfold w1. cbn [record res].
    destruct (logged_frame sev_debug ("Cache hit for key: " +:+ key)
                (record (RedisGet key) w)) as (_ & _ & ->). reflexivity. }
  unfold floating, index.res_send. rewrite Hres, Hs.
  rewrite call_send_ready by exact Hready. cbn zeta. cbn [typeof_object].
  unfold index.call_sendResponse.
  destruct (stored_frame k1 (JStr (String a s)) r1 "Data cached for key: " w1)
    as (_ & -> & _).
  rewrite Hres, Hsr. reflexivity.
Qed.

(** A miss on [/page] (type [always]) followed, on the same response, by a
    hit of a per-request-url handler: the replayed body is stored under the
    first handler's key. *)
Lemma hit_feeds_earlier_miss_example :
  let outer := route_of "GET" "/page" (spec_of "always" (Some (Int 30))) in
  let inner := route_of "GET" "/page" (spec_of "per-request-url" None) in
  let req := {| url := "/page?x=1"; cookies := None; headers := ∅ |} in
  let reply k := if String.eqb k "cache:GET:/page?x=1" then Some "body"
                 else None in
  let w1 := snd (index.handle example_parse example_stringify
                   (fun w => (Normal tt, w)) outer req (test_world reply)) in
  trace (snd (index.handle example_parse example_stringify recording_next
                inner req w1))
    = trace w1 ++
      [RedisGet "cache:GET:/page?x=1";
       Console sev_debug
         (log_prefix +:+ "Cache hit for key: cache:GET:/page?x=1");
       SetHeader "X-Cache" "HIT";
       RedisSet "cache:GET:/page" (JStr "body") (Int 30);
       Console sev_debug
         (log_prefix +:+ "Data cached for key: cache:GET:/page");
       ExpressSend (JStr "body")].
Proof.
  intros outer inner req reply w1.
  rewrite (hit_feeds_earlier_miss example_parse example_stringify
             recording_next inner outer req "cache:GET:/page?x=1"
             "cache:GET:/page" {| isReady := true; GET := reply |} "body" w1
             eq_refl eq_refl eq_refl eq_refl ltac:(discriminate)
             eq_refl eq_refl eq_refl).
  reflexivity.
Defined.

(** *** Property lookup *)

(** None of the cookie and header names that discovery reads is a member
    inherited from [Object.prototype]: for them the lookup on a plain object
    is the own property or [undefined], as [prop] has it. *)
Lemma listed_names_are_own (o : gmap string JSValue) (name : string) :
  In name commonAuthCookieNames \/ In name lowered_header_names ->
  get_member o name = member_value (prop o name).
Proof.
  intros H.
  assert (N : Object_prototype_text name = None).
  { destruct H as [H|H]; cbn in H;
      repeat (destruct H as [<-|H]; [reflexivity|]); destruct H. }
  unfold get_member, prop. rewrite N.
  destruct (o !! name); reflexivity.
Qed.
